(** * Jump-between-platforms game: the simulation core of [src/pages/index/index.ts]

    The page object of the mini-program is embedded as a record [Page]; every
    handler of the source ([resetWorld], [generateNextPlatform], [startGame],
    [restartGame], [onTouchStart], [onTouchEnd], [update], [checkLanding],
    [recenterWorld], [endGame], [draw]) becomes a function on that record.

    - JavaScript numbers are idealised as real numbers ([R]); [Math.round],
      [Math.floor], [Math.min], [Math.max] and [Math.hypot] are the exact
      mathematical functions.
    - [Math.random()] is an input: each call of the generator consumes the
      five draws of a [Rand] record, in the order the source makes them.
    - [Date.now()] is an input of the two touch handlers.
    - Reading [platforms[i]] past the end of the array gives [undefined] in
      the source and the following property access throws a [TypeError]; the
      handlers that index the array return an [Outcome], [Fault s] carrying
      the page as the throw leaves it (the mutations made before the throw
      persist on the page object).
    - Left out: the canvas calls of [draw] and [roundRect], the display
      fields ([dpr], the player's colour) and [renderLoop] with its
      [lastTs], whose only effect on the game is to call [update] with a
      step of at most 0.033 s. *)

From Stdlib Require Import Reals Lra Lia List String ZArith Bool Arith.
Import ListNotations.
Open Scope R_scope.

(** ** Numbers *)

Definition Rleb (a b : R) : bool := if Rle_dec a b then true else false.
Definition Rgeb (a b : R) : bool := Rleb b a.
Definition Rgtb (a b : R) : bool := if Rlt_dec b a then true else false.

(** [Math.floor] and [Math.round] (the latter rounds halves up). They are
    applied to exact real arguments. On doubles a product whose exact
    value is a half, such as [690 * 0.35], can fall just below it, and
    [Math.round] is then one lower than [round]; both satisfy
    [v - 1 / 2 <= n <= v + 1 / 2], the form in which the statements on
    band edges below are given. *)
Definition floor (x : R) : R := IZR (Zfloor x).
Definition round (x : R) : R := IZR (Zfloor (x + 1 / 2)).

(** [Math.hypot(a, b)]. *)
Definition hypot (a b : R) : R := sqrt (a * a + b * b).

(** [randInt(min, max)], with [u] the value returned by [Math.random()]. *)
Definition randInt (u min max : R) : R := floor (u * (max - min + 1)) + min.

Definition clamp (v lo hi : R) : R := Rmax lo (Rmin hi v).

(** ** Data *)

Record Vector2 := mkVector2 { x : R; y : R }.

Module Platform.
Record t := mk {
  id : nat;
  position : Vector2;   (* center position *)
  size : Vector2;       (* width, height *)
  color : string
}.
End Platform.

Module Player.
Record t := mk {
  position : Vector2;
  velocity : Vector2;
  radius : R;
  onGround : bool
}.
End Player.

(** The page object: the [data] fields, then the game objects. *)
Record Page := mkPage {
  gameStarted : bool;
  gameOver : bool;
  showOverlay : bool;
  score : nat;
  ctx : bool;                       (* is a canvas context attached *)
  canvasWidth : R;
  canvasHeight : R;
  player : Player.t;
  platforms : list Platform.t;
  currentPlatformId : nat;
  targetPlatformId : nat;
  pressStartTime : R;
  isPressing : bool
}.

Definition gravity : R := 2000.
Definition chargeFactor : R := 4.2.
Definition horizontalFactor : R := 0.6.

(** The five [Math.random()] draws of one [generateNextPlatform] call. *)
Record Rand := mkRand {
  r_dx : R;      (* randInt(minDx, maxDx) *)
  r_sign : R;    (* Math.random() > 0.5 ? 1 : -1 *)
  r_width : R;   (* randInt(minW, maxW) *)
  r_y : R;       (* randInt(-yVariance, yVariance) *)
  r_color : R    (* randInt(0, 3) *)
}.

Inductive Outcome :=
| Done (s : Page)
| Fault (s : Page).

Definition state_of (o : Outcome) : Page :=
  match o with Done s => s | Fault s => s end.

Definition faulted (o : Outcome) : bool :=
  match o with Done _ => false | Fault _ => true end.

Definition andThen (o : Outcome) (k : Page -> Outcome) : Outcome :=
  match o with Done s => k s | Fault s => Fault s end.

Notation "o >>= k" := (andThen o k) (at level 50, left associativity).

(** ** Field updates *)

Definition set_player (s : Page) (p : Player.t) : Page :=
  mkPage (gameStarted s) (gameOver s) (showOverlay s) (score s) (ctx s)
         (canvasWidth s) (canvasHeight s) p (platforms s)
         (currentPlatformId s) (targetPlatformId s)
         (pressStartTime s) (isPressing s).

Definition set_platforms (s : Page) (ps : list Platform.t) : Page :=
  mkPage (gameStarted s) (gameOver s) (showOverlay s) (score s) (ctx s)
         (canvasWidth s) (canvasHeight s) (player s) ps
         (currentPlatformId s) (targetPlatformId s)
         (pressStartTime s) (isPressing s).

Definition set_ids (s : Page) (cur tgt : nat) : Page :=
  mkPage (gameStarted s) (gameOver s) (showOverlay s) (score s) (ctx s)
         (canvasWidth s) (canvasHeight s) (player s) (platforms s)
         cur tgt (pressStartTime s) (isPressing s).

Definition set_score (s : Page) (n : nat) : Page :=
  mkPage (gameStarted s) (gameOver s) (showOverlay s) n (ctx s)
         (canvasWidth s) (canvasHeight s) (player s) (platforms s)
         (currentPlatformId s) (targetPlatformId s)
         (pressStartTime s) (isPressing s).

Definition set_flags (s : Page) (started over overlay : bool) : Page :=
  mkPage started over overlay (score s) (ctx s)
         (canvasWidth s) (canvasHeight s) (player s) (platforms s)
         (currentPlatformId s) (targetPlatformId s)
         (pressStartTime s) (isPressing s).

Definition set_press (s : Page) (t : R) (pressing : bool) : Page :=
  mkPage (gameStarted s) (gameOver s) (showOverlay s) (score s) (ctx s)
         (canvasWidth s) (canvasHeight s) (player s) (platforms s)
         (currentPlatformId s) (targetPlatformId s) t pressing.

(** ** The platform generator *)

Definition palette : list string :=
  ["#4ecca3"; "#f95959"; "#3f72af"; "#ffd460"]%string.

(** [palette[k]]; an index outside the array reads [undefined]. *)
Definition palette_at (k : R) : string :=
  if Rleb 0 k then nth (Z.to_nat (Zfloor k)) palette "undefined"%string
  else "undefined"%string.

(** The locals [minDx], [maxDx] and [dx] of [generateNextPlatform]. *)
Definition minDx (W : R) : R := round (W * 0.22).
Definition maxDx (W : R) : R := round (W * 0.45).
Definition signedDx (W : R) (rnd : Rand) : R :=
  randInt (r_dx rnd) (minDx W) (maxDx W)
  * (if Rgtb (r_sign rnd) 0.5 then 1 else -1).

Definition generateNextPlatform (W H : R) (rnd : Rand) (prev : Platform.t)
  : Platform.t :=
  let dx := signedDx W rnd in
  let minW := round (W * 0.16) in
  let maxW := round (W * 0.28) in
  let width := randInt (r_width rnd) minW maxW in
  let height := Rmax 12 (round (width * 0.28)) in
  let x' := clamp (x (Platform.position prev) + dx)
                  (round (W * 0.18)) (round (W * 0.82)) in
  let yVariance := round (H * 0.06) in
  let y' := clamp (y (Platform.position prev)
                   + randInt (r_y rnd) (- yVariance) yVariance)
                  (round (H * 0.35)) (round (H * 0.8)) in
  Platform.mk (S (Platform.id prev))
              (mkVector2 x' y')
              (mkVector2 width height)
              (palette_at (randInt (r_color rnd) 0 3)).

(** ** Session start and reset *)

Definition resetWorld (rnd : Rand) (s : Page) : Page :=
  let W := canvasWidth s in
  let H := canvasHeight s in
  let radius := round (W / 20) in
  let baseY := round (H * 0.7) in
  let p0 := Platform.mk 0
              (mkVector2 (round (W * 0.3)) baseY)
              (mkVector2 (round (W * 0.22)) (round (W * 0.06)))
              "#4ecca3"%string in
  let p1 := generateNextPlatform W H rnd p0 in
  mkPage (gameStarted s) (gameOver s) (showOverlay s) 0 (ctx s) W H
         (Player.mk (mkVector2 (x (Platform.position p0))
                               (y (Platform.position p0) - radius - 6))
                    (mkVector2 0 0) radius true)
         [p0; p1] 0 1 (pressStartTime s) (isPressing s).

Definition startGame (rnd : Rand) (s : Page) : Page :=
  if gameStarted s then s
  else resetWorld rnd (set_flags s true false false).

Definition restartGame (rnd : Rand) (s : Page) : Page :=
  resetWorld rnd (set_flags s (gameStarted s) false false).

Definition endGame (s : Page) : Page := set_flags s true true true.

(** The page object as the source declares it, and the page once the
    canvas query of [initCanvas] has answered: the sizes are stored, a
    context is attached and the world is reset ([renderLoop(0)], which
    follows, ticks with [dt = 0] on a grounded player and changes nothing). *)
Definition page0 : Page :=
  mkPage false false true 0 false 0 0
         (Player.mk (mkVector2 0 0) (mkVector2 0 0) 18 false)
         [] 0 0 0 false.

Definition initCanvas (windowWidth windowHeight : R) (rnd : Rand) : Page :=
  let s := page0 in
  resetWorld rnd
    (mkPage (gameStarted s) (gameOver s) (showOverlay s) (score s) true
            windowWidth windowHeight (player s) (platforms s)
            (currentPlatformId s) (targetPlatformId s)
            (pressStartTime s) (isPressing s)).

(** ** Input handlers *)

Definition onTouchStart (now : R) (s : Page) : Page :=
  if negb (gameStarted s) || gameOver s then s
  else set_press s now true.

Definition onTouchEnd (now : R) (s : Page) : Outcome :=
  if negb (gameStarted s) || gameOver s then Done s
  else if negb (isPressing s) then Done s
  else
    let s1 := set_press s (pressStartTime s) false in
    let dtMs := now - pressStartTime s in
    let power := Rmin (dtMs / 1000) 1.2 * chargeFactor * canvasWidth s in
    match nth_error (platforms s) (currentPlatformId s),
          nth_error (platforms s) (targetPlatformId s) with
    | Some current, Some target =>
        let dirX := x (Platform.position target)
                    - x (Platform.position current) in
        let dirY := y (Platform.position target)
                    - y (Platform.position current) in
        let len := Rmax 1 (hypot dirX dirY) in
        let nx := dirX / len in
        let ny := dirY / len in
        Done (set_player s1
                (Player.mk (Player.position (player s))
                           (mkVector2 (nx * power * horizontalFactor)
                                      (ny * power * 0.4 - power * 0.8))
                           (Player.radius (player s))
                           false))
    | _, _ => Fault s1
    end.

(** ** Landing detection and the world window *)

Definition checkLanding (s : Page) (platform : Platform.t) : bool :=
  let px := x (Player.position (player s)) in
  let py := y (Player.position (player s)) + Player.radius (player s) in
  let left := x (Platform.position platform)
              - x (Platform.size platform) / 2 in
  let right := x (Platform.position platform)
               + x (Platform.size platform) / 2 in
  let top := y (Platform.position platform)
             - y (Platform.size platform) / 2 - 2 in
  let bottom := y (Platform.position platform)
                + y (Platform.size platform) / 2 + 4 in
  let withinX := Rgeb px left && Rleb px right in
  let withinY := Rgeb py top && Rleb py bottom
                 && Rgeb (y (Player.velocity (player s))) 0 in
  withinX && withinY.

Definition shiftPlatform (dx : R) (p : Platform.t) : Platform.t :=
  Platform.mk (Platform.id p)
              (mkVector2 (x (Platform.position p) + dx)
                         (y (Platform.position p)))
              (Platform.size p) (Platform.color p).

Definition shiftPlayer (dx : R) (p : Player.t) : Player.t :=
  Player.mk (mkVector2 (x (Player.position p) + dx) (y (Player.position p)))
            (Player.velocity p) (Player.radius p) (Player.onGround p).

(** [a.slice(-n)]: the last [n] elements, the whole array when shorter. *)
Definition slice_last {A : Type} (n : nat) (a : list A) : list A :=
  skipn (List.length a - n) a.

(** The translation of [recenterWorld]: every platform and the player
    move by [dx] along x. *)
Definition shiftWorld (dx : R) (s : Page) : Page :=
  set_player (set_platforms s (map (shiftPlatform dx) (platforms s)))
             (shiftPlayer dx (player s)).

Definition recenterWorld (s : Page) : Outcome :=
  let desiredX := round (canvasWidth s * 0.3) in
  match nth_error (platforms s) (currentPlatformId s) with
  | None => Fault s
  | Some current =>
      let dx := desiredX - x (Platform.position current) in
      if Req_dec_T dx 0 then Done s
      else
        let s1 := shiftWorld dx s in
        if (8 <? List.length (platforms s1))%nat then
          let s2 := set_platforms s1 (slice_last 6 (platforms s1)) in
          match platforms s2 with
          | first :: _ =>
              Done (set_ids s2 (Platform.id first) (S (Platform.id first)))
          | [] => Fault s2
          end
        else Done s1
  end.

(** ** The frame update *)

(** The physics step of [update]: gravity, then explicit Euler. *)
Definition integrate (dt : R) (p : Player.t) : Player.t :=
  let vy := y (Player.velocity p) + gravity * dt in
  Player.mk (mkVector2 (x (Player.position p) + x (Player.velocity p) * dt)
                       (y (Player.position p) + vy * dt))
            (mkVector2 (x (Player.velocity p)) vy)
            (Player.radius p) (Player.onGround p).

(** The assignments of the landing branch of [update], in source order:
    ground the player, zero the velocity, renumber current and target,
    push the generated platform, bump the score. *)
Definition touchDown (rnd : Rand) (target : Platform.t) (s : Page) : Page :=
  let p := player s in
  let s1 := set_player s (Player.mk (Player.position p) (mkVector2 0 0)
                                    (Player.radius p) true) in
  let s2 := set_ids s1 (Platform.id target) (S (Platform.id target)) in
  let s3 := set_platforms s2
              (platforms s2
               ++ [generateNextPlatform (canvasWidth s) (canvasHeight s)
                                        rnd target]) in
  set_score s3 (S (score s3)).

(** The landing branch of [update], up to and including [recenterWorld]. *)
Definition land (rnd : Rand) (target : Platform.t) (s : Page) : Outcome :=
  recenterWorld (touchDown rnd target s).

(** The miss check of [update]. *)
Definition fellBelow (s : Page) : bool :=
  Rgtb (y (Player.position (player s)) - Player.radius (player s))
       (canvasHeight s + 80).

(** [draw] only reads the page; what matters here is that the aim line
    dereferences the current and the target platform while a press is held
    on the ground. *)
Definition draw (s : Page) : Outcome :=
  if isPressing s && Player.onGround (player s) then
    match nth_error (platforms s) (currentPlatformId s),
          nth_error (platforms s) (targetPlatformId s) with
    | Some _, Some _ => Done s
    | _, _ => Fault s
    end
  else Done s.

Definition update (dt : R) (rnd : Rand) (s : Page) : Outcome :=
  if negb (ctx s) then Done s
  else
    (if negb (Player.onGround (player s)) then
       let s1 := set_player s (integrate dt (player s)) in
       match nth_error (platforms s1) (targetPlatformId s1) with
       | None => Fault s1
       | Some target =>
           (if checkLanding s1 target then land rnd target s1 else Done s1)
           >>= fun s2 => Done (if fellBelow s2 then endGame s2 else s2)
       end
     else Done s)
    >>= draw.

(** ** Sessions *)

Inductive Event :=
| EStart (rnd : Rand)
| ERestart (rnd : Rand)
| ETouchStart (now : R)
| ETouchEnd (now : R)
| ETick (dt : R) (rnd : Rand).

Definition step (e : Event) (s : Page) : Outcome :=
  match e with
  | EStart rnd => Done (startGame rnd s)
  | ERestart rnd => Done (restartGame rnd s)
  | ETouchStart now => Done (onTouchStart now s)
  | ETouchEnd now => onTouchEnd now s
  | ETick dt rnd => update dt rnd s
  end.

(** Runs a sequence of events, stopping at the first fault. *)
Fixpoint exec (es : list Event) (s : Page) : Outcome :=
  match es with
  | [] => Done s
  | e :: es' => step e s >>= exec es'
  end.

(** [Math.random()] returns a number in [[0, 1)]. *)
Definition valid_draw (u : R) : Prop := 0 <= u < 1.

Definition valid_rand (rnd : Rand) : Prop :=
  valid_draw (r_dx rnd) /\ valid_draw (r_sign rnd) /\
  valid_draw (r_width rnd) /\ valid_draw (r_y rnd) /\
  valid_draw (r_color rnd).

(** [renderLoop] passes [update] a step of at most 0.033 s, and frame
    timestamps do not decrease. *)
Definition valid_event (e : Event) : Prop :=
  match e with
  | EStart rnd | ERestart rnd => valid_rand rnd
  | ETouchStart _ | ETouchEnd _ => True
  | ETick dt rnd => 0 <= dt <= 0.033 /\ valid_rand rnd
  end.

(** The pages a session can be in: the page after canvas initialisation on
    a [W] by [H] window, and every page a handler leaves behind, whether it
    returned or threw (the page object outlives the exception). *)
Inductive reachable (W H : R) : Page -> Prop :=
| reach_init rnd :
    valid_rand rnd -> reachable W H (initCanvas W H rnd)
| reach_step e s :
    reachable W H s -> valid_event e -> reachable W H (state_of (step e s)).

(** The three states of the session state machine. *)
Inductive Phase := Idle | Playing | GameOver.

Definition phase (s : Page) : Phase :=
  if negb (gameStarted s) then Idle
  else if gameOver s then GameOver else Playing.

(** ** The launch calculator as the specification words it

    [computeLaunch(pressDurationMs, current, target, viewportWidth)]: the
    power saturates at 1.2 s of press, the direction is the vector from the
    current to the target centre divided by its Euclidean length floored
    at 1. *)

Definition spec_power (pressDurationMs viewportWidth : R) : R :=
  Rmin (pressDurationMs / 1000) 1.2 * chargeFactor * viewportWidth.

Definition spec_length (current target : Vector2) : R :=
  Rmax 1 (sqrt ((x target - x current) ^ 2 + (y target - y current) ^ 2)).

Definition spec_direction (current target : Vector2) : Vector2 :=
  mkVector2 ((x target - x current) / spec_length current target)
            ((y target - y current) / spec_length current target).

Definition computeLaunch (pressDurationMs : R) (current target : Vector2)
           (viewportWidth : R) : Vector2 :=
  let power := spec_power pressDurationMs viewportWidth in
  let direction := spec_direction current target in
  mkVector2 (x direction * power * horizontalFactor)
            (y direction * power * 0.4 - power * 0.8).

(** ** Concrete sessions on a 100 by 200 window

    Every generator call below draws the smallest offset (22), the widest
    platform (28 by 12), no vertical change and the first colour; only the
    sign draw varies. *)

Definition draws (sgn : R) : Rand := mkRand 0 sgn 0.95 0.5 0.

Definition plat (i : nat) (cx : R) : Platform.t :=
  Platform.mk i (mkVector2 cx 140) (mkVector2 28 12) "#4ecca3"%string.

Definition plat0 (cx : R) : Platform.t :=
  Platform.mk 0 (mkVector2 cx 140) (mkVector2 22 6) "#4ecca3"%string.

(** A running session with the player at rest on a platform. *)
Definition world (ps : list Platform.t) (cur tgt scr : nat) (px py t : R)
  : Page :=
  mkPage true false false scr true 100 200
         (Player.mk (mkVector2 px py) (mkVector2 0 0) 5 true)
         ps cur tgt t false.

(** A tap of zero duration at time [t], then one frame of 16 ms. *)
Definition hop (t sgn : R) : list Event :=
  [ETouchStart t; ETouchEnd t; ETick 0.016 (draws sgn)].

(** Six landings, after which the array holds eight platforms. *)
Definition approach_trace : list Event :=
  EStart (draws 0.25)
  :: hop 1000 0.75 ++ hop 2000 0.25 ++ hop 3000 0.75 ++ hop 4000 0.25
  ++ hop 5000 0.75 ++ hop 6000 0.25.

Definition crowded : Page :=
  world [plat0 20; plat 1 8; plat 2 30; plat 3 8; plat 4 30; plat 5 8;
         plat 6 30; plat 7 8] 6 7 6 20 132.072 6000.

(** The seventh tap: the player is in the air above platform 7. *)
Definition poised : Page :=
  set_player (set_press crowded 7000 false)
             (Player.mk (mkVector2 20 132.072) (mkVector2 0 0) 5 false).

(** Seven landings: the seventh makes the array nine long and trims it. *)
Definition eviction_trace : list Event :=
  approach_trace ++ hop 7000 0.75.

Definition evicted : Page :=
  world [plat 3 30; plat 4 52; plat 5 30; plat 6 52; plat 7 30; plat 8 52]
        3 4 7 42 132.584 7000.

(** The page in the middle of the eighth hop, airborne after the tap. *)
Definition relaunched : Page :=
  set_player (set_press evicted 8000 false)
             (Player.mk (mkVector2 42 132.584) (mkVector2 0 0) 5 false).

(** The page the eighth landing leaves behind when [recenterWorld] throws. *)
Definition crashed : Page :=
  world [plat 3 30; plat 4 52; plat 5 30; plat 6 52; plat 7 30; plat 8 52;
         plat 8 52]
        7 8 8 42 133.096 8000.

(** A session whose player has stepped off the first platform: the target
    is out of horizontal reach, so the player falls straight down. *)
Definition falling (over : bool) (py vy : R) : Page :=
  mkPage true over over 0 true 100 200
         (Player.mk (mkVector2 30 py) (mkVector2 0 vy) 5 false)
         [plat0 30; plat 1 52] 0 1 1000 false.

Definition fall_trace : list Event :=
  [EStart (draws 0.75); ETouchStart 1000; ETouchEnd 1000]
  ++ repeat (ETick 0.033 (draws 0.75)) 12.

Definition fallen : Page := falling true 298.884 792.

(** A press that starts before a restart and ends after it. *)
Definition straddle_trace : list Event :=
  [EStart (draws 0.75); ETouchStart 1000; ERestart (draws 0.75);
   ETouchEnd 1500].


(** A press begun at time 1000 and still held, on the first platform
    ([og = true]) or in the air above it. *)
Definition pressing (og : bool) : Page :=
  mkPage true false false 0 true 100 200
         (Player.mk (mkVector2 30 129) (mkVector2 0 0) 5 og)
         [plat0 30; plat 1 52] 0 1 1000 true.

Definition airborne_pressing : Page := pressing false.

(** ** Invariants of a session *)

(** No platform is taller than this: the first one is [round(0.06 W)]
    high, a generated one [max(12, round(0.28 width))] with
    [width <= round(0.28 W) + 1]. *)
Definition heightBound (W : R) : R := 0.08 * W + 12.

Record wellFormed (W H : R) (s : Page) : Prop := mkWellFormed {
  wf_ctx : ctx s = true;
  wf_width : canvasWidth s = W;
  wf_height : canvasHeight s = H;
  wf_ids : targetPlatformId s = S (currentPlatformId s);
  wf_radius : Player.radius (player s) = round (W / 20);
  wf_sizes :
    0 <= W ->
    Forall (fun p => y (Platform.size p) <= heightBound W) (platforms s);
  wf_idle : gameStarted s = false -> Player.onGround (player s) = true
}.

(** The ids of the platform sequence, in array order. *)
Definition ids (s : Page) : list nat := map Platform.id (platforms s).

(** Before any trim the ids are the array indices and the target is the
    last platform. *)
Definition untrimmed (s : Page) : Prop :=
  ids s = seq 0 (List.length (platforms s)) /\
  List.length (platforms s) = S (S (currentPlatformId s)) /\
  targetPlatformId s = S (currentPlatformId s).

(** Right after a trim six platforms [k .. k+5] remain, [3 <= k], and the
    current and target ids are [k] and [k + 1]. *)
Definition trimmed (s : Page) : Prop :=
  exists k, (3 <= k)%nat /\ ids s = seq k 6 /\
            currentPlatformId s = k /\ targetPlatformId s = S k.

(** ** The render loop and the charge feedback *)

(** The step [renderLoop] computes from the previous timestamp: a
    previous timestamp of 0 is falsy and is replaced by the current one. *)
Definition frameDt (lastTs ts : R) : R :=
  let last := if Req_dec_T lastTs 0 then ts else lastTs in
  Rmin 0.033 ((ts - last) / 1000).

(** [renderLoop(ts)]: the new [lastTs] and the outcome of [update]; the
    next frame is requested only when [update] returns. *)
Definition renderLoop (ts : R) (rnd : Rand) (lastTs : R) (s : Page)
  : R * Outcome :=
  (ts, update (frameDt lastTs ts) rnd s).

(** The squash factor [update] hands to [draw], and the two scale factors
    [draw] derives from it. *)
Definition squash (now : R) (s : Page) : R :=
  if isPressing s && Player.onGround (player s)
  then clamp ((now - pressStartTime s) / 600) 0 0.25
  else 0.

Definition scaleY (sq : R) : R := 1 - sq.
Definition scaleX (sq : R) : R := 1 + sq * 0.9.

(** The opacity of the aim line of [draw]. *)
Definition aimAlpha (now : R) (s : Page) : R :=
  0.4 + 0.4 * clamp ((now - pressStartTime s) / 1200) 0 1.

(** The current platform sits at the desired screen position. *)
Definition anchored (s : Page) : Prop :=
  exists c, nth_error (platforms s) (currentPlatformId s) = Some c /\
            x (Platform.position c) = round (canvasWidth s * 0.3).

(** * Properties *)

(** ** Comparisons, rounding and random integers *)

Lemma Rleb_true a b : a <= b -> Rleb a b = true.
Proof.
  intros Hab. unfold Rleb.
  destruct (Rle_dec a b); [reflexivity | contradiction].
Qed.

Lemma Rleb_false a b : b < a -> Rleb a b = false.
Proof.
  intros Hab. unfold Rleb. destruct (Rle_dec a b); [lra | reflexivity].
Qed.

Lemma Rleb_spec a b : Rleb a b = true <-> a <= b.
Proof.
  unfold Rleb. destruct (Rle_dec a b); split; intros; auto; discriminate.
Qed.

Lemma Rgeb_true a b : b <= a -> Rgeb a b = true.
Proof. apply Rleb_true. Qed.

Lemma Rgeb_false a b : a < b -> Rgeb a b = false.
Proof. apply Rleb_false. Qed.

Lemma Rgeb_spec a b : Rgeb a b = true <-> b <= a.
Proof. apply Rleb_spec. Qed.

Lemma Rgtb_true a b : b < a -> Rgtb a b = true.
Proof.
  intros Hab. unfold Rgtb.
  destruct (Rlt_dec b a); [reflexivity | contradiction].
Qed.

Lemma Rgtb_false a b : a <= b -> Rgtb a b = false.
Proof.
  intros Hab. unfold Rgtb. destruct (Rlt_dec b a); [lra | reflexivity].
Qed.

Lemma Rgtb_spec a b : Rgtb a b = true <-> b < a.
Proof.
  unfold Rgtb. destruct (Rlt_dec b a); split; intros; auto; discriminate.
Qed.

(** Decides every comparison of the goal that linear arithmetic settles. *)
Ltac Rbool :=
  repeat first
    [ rewrite Rleb_true by lra | rewrite Rleb_false by lra
    | rewrite Rgeb_true by lra | rewrite Rgeb_false by lra
    | rewrite Rgtb_true by lra | rewrite Rgtb_false by lra ].

Lemma round_eq (z : Z) v :
  IZR z - 1 / 2 <= v < IZR z + 1 / 2 -> round v = IZR z.
Proof. intros Hv. unfold round. f_equal. apply Zfloor_eq. lra. Qed.

Lemma floor_eq (z : Z) v : IZR z <= v < IZR z + 1 -> floor v = IZR z.
Proof. intros Hv. unfold floor. f_equal. apply Zfloor_eq. lra. Qed.

Lemma round_bound v : v - 1 / 2 < round v <= v + 1 / 2.
Proof. unfold round. pose proof (Zfloor_bound (v + 1 / 2)). lra. Qed.

Lemma round_le u v : u <= v -> round u <= round v.
Proof. intros Huv. unfold round. apply IZR_le, Zfloor_le. lra. Qed.

Lemma round_nonneg v : 0 <= v -> 0 <= round v.
Proof.
  intros Hv. unfold round. apply (IZR_le 0), Zfloor_lub. simpl. lra.
Qed.

Lemma floor_bound v : floor v <= v < floor v + 1.
Proof. unfold floor. apply Zfloor_bound. Qed.

(** Between integer bounds [randInt] stays within them, both included. *)
Lemma randInt_range (a b : Z) u :
  valid_draw u -> (a <= b)%Z ->
  IZR a <= randInt u (IZR a) (IZR b) <= IZR b.
Proof.
  intros [Hu0 Hu1] Hab. unfold randInt, floor.
  assert (Hn : 0 < IZR b - IZR a + 1) by (apply IZR_le in Hab; lra).
  pose proof (Zfloor_bound (u * (IZR b - IZR a + 1))) as [Hlo Hhi].
  assert (H0 : (0 <= Zfloor (u * (IZR b - IZR a + 1)))%Z).
  { apply Zfloor_lub. simpl. nra. }
  assert (H1 : (Zfloor (u * (IZR b - IZR a + 1)) < b - a + 1)%Z).
  { apply lt_IZR. rewrite plus_IZR, minus_IZR. simpl. nra. }
  apply IZR_le in H0.
  assert (H2 : (Zfloor (u * (IZR b - IZR a + 1)) <= b - a)%Z) by lia.
  apply IZR_le in H2. rewrite minus_IZR in H2. simpl in H0. lra.
Qed.

(** With [min <= max], integers or not, [randInt] stays below
    [max + 1]. *)
Lemma randInt_upper u lo hi :
  valid_draw u -> lo <= hi -> randInt u lo hi <= hi + 1.
Proof.
  intros [Hu0 Hu1] Hlh. unfold randInt.
  pose proof (floor_bound (u * (hi - lo + 1))). nra.
Qed.

Lemma clamp_range v lo hi : lo <= hi -> lo <= clamp v lo hi <= hi.
Proof.
  intros Hlh. unfold clamp, Rmax, Rmin.
  repeat (destruct Rle_dec; try lra).
Qed.

Lemma clamp_inside v lo hi : lo <= v <= hi -> clamp v lo hi = v.
Proof.
  intros Hv. unfold clamp, Rmax, Rmin. repeat (destruct Rle_dec; try lra).
Qed.

Lemma clamp_below v lo hi : v <= lo -> lo <= hi -> clamp v lo hi = lo.
Proof.
  intros Hv Hlh. unfold clamp, Rmax, Rmin.
  repeat (destruct Rle_dec; try lra).
Qed.

(** ** The platform generator *)

Lemma generate_id W H rnd prev :
  Platform.id (generateNextPlatform W H rnd prev) = S (Platform.id prev).
Proof. reflexivity. Qed.

Lemma minDx_le_maxDx W : 0 <= W -> 0 <= minDx W <= maxDx W.
Proof.
  intros HW. unfold minDx, maxDx. split.
  - apply round_nonneg. lra.
  - apply round_le. lra.
Qed.

Lemma drawn_distance W rnd :
  0 <= W -> valid_rand rnd ->
  minDx W <= Rabs (signedDx W rnd) <= maxDx W.
Proof.
  intros HW (Hdx & _). unfold signedDx.
  assert (Hr : minDx W <= randInt (r_dx rnd) (minDx W) (maxDx W) <= maxDx W).
  { unfold minDx, maxDx, round. apply randInt_range; [exact Hdx|].
    apply Zfloor_le. lra. }
  pose proof (minDx_le_maxDx W HW) as [H0 _].
  destruct (Rgtb (r_sign rnd) 0.5).
  - rewrite Rmult_1_r, Rabs_pos_eq; lra.
  - replace (randInt (r_dx rnd) (minDx W) (maxDx W) * -1)
      with (- randInt (r_dx rnd) (minDx W) (maxDx W)) by ring.
    rewrite Rabs_Ropp, Rabs_pos_eq; lra.
Qed.

(** C5, as stated, fails: on a 100 px wide window the first platform sits
    at 30, inside the band [18, 82]; a leftward draw of 22 is clamped to
    18, only 12 away, less than [minDx = 22]. *)
Lemma generator_gap_clamped :
  let prev := plat0 30 in
  let next := generateNextPlatform 100 200 (draws 0.25) prev in
  valid_rand (draws 0.25) /\
  round (100 * 0.18) <= x (Platform.position prev) <= round (100 * 0.82) /\
  ~ (minDx 100
     <= Rabs (x (Platform.position next) - x (Platform.position prev))
     <= maxDx 100).
Proof.
  cbv zeta.
  assert (Hx : x (Platform.position
                    (generateNextPlatform 100 200 (draws 0.25) (plat0 30)))
               = 18).
  { unfold generateNextPlatform, signedDx, minDx, maxDx, randInt, draws.
    cbn [Platform.position x r_dx r_sign plat0].
    rewrite (round_eq 22 (100 * 0.22)), (round_eq 45 (100 * 0.45)),
            (round_eq 18 (100 * 0.18)), (round_eq 82 (100 * 0.82)) by lra.
    rewrite (floor_eq 0 (0 * _)) by lra. Rbool.
    apply clamp_below; lra. }
  rewrite Hx. unfold minDx, plat0. cbn [Platform.position x].
  rewrite (round_eq 22 (100 * 0.22)), (round_eq 18 (100 * 0.18)),
          (round_eq 82 (100 * 0.82)) by lra.
  repeat split; unfold valid_draw, draws; cbn; try lra.
  replace (18 - 30) with (- (12)) by lra.
  rewrite Rabs_Ropp, Rabs_pos_eq by lra. lra.
Qed.

(** C5, amended: from a previous platform inside the band
    [[round(0.18 W), round(0.82 W)]] the new centre is at most [maxDx]
    away, and it is at least [minDx] away whenever the drawn position
    [previous.x + dx] itself lies in the band (no clamping). *)
Theorem generator_gap W H rnd prev :
  0 < W -> valid_rand rnd ->
  round (W * 0.18) <= x (Platform.position prev) <= round (W * 0.82) ->
  let next := generateNextPlatform W H rnd prev in
  let gap := Rabs (x (Platform.position next) - x (Platform.position prev)) in
  gap <= maxDx W /\
  (round (W * 0.18) <= x (Platform.position prev) + signedDx W rnd
                    <= round (W * 0.82) ->
   minDx W <= gap <= maxDx W).
Proof.
  intros HW Hrnd Hprev next gap.
  assert (Hd : minDx W <= Rabs (signedDx W rnd) <= maxDx W)
    by (apply drawn_distance; [lra | exact Hrnd]).
  assert (Hnext : x (Platform.position next)
                  = clamp (x (Platform.position prev) + signedDx W rnd)
                          (round (W * 0.18)) (round (W * 0.82)))
    by reflexivity.
  split.
  - subst gap. rewrite Hnext. revert Hd.
    unfold clamp, Rmax, Rmin, Rabs.
    repeat (destruct Rle_dec; try lra); repeat (destruct Rcase_abs; try lra).
  - intros Hin. subst gap. rewrite Hnext, clamp_inside by exact Hin.
    replace (x (Platform.position prev) + signedDx W rnd
             - x (Platform.position prev)) with (signedDx W rnd) by ring.
    exact Hd.
Qed.

Lemma generator_gap_witness :
  let next := generateNextPlatform 100 200 (draws 0.25) (plat0 30) in
  Rabs (x (Platform.position next) - 30) <= maxDx 100.
Proof.
  assert (Hrnd : valid_rand (draws 0.25))
    by (repeat split; unfold draws; cbn; lra).
  assert (Hband : round (100 * 0.18) <= x (Platform.position (plat0 30))
                  <= round (100 * 0.82)).
  { rewrite (round_eq 18 (100 * 0.18)), (round_eq 82 (100 * 0.82)) by lra.
    cbn. lra. }
  exact (proj1 (generator_gap 100 200 (draws 0.25) (plat0 30)
                              ltac:(lra) Hrnd Hband)).
Defined.

(** ** The session state machine *)

Lemma phase_playing s :
  phase s = Playing <-> gameStarted s = true /\ gameOver s = false.
Proof.
  unfold phase. destruct (gameStarted s), (gameOver s); cbn;
    split; intros H; try discriminate; auto; destruct H; discriminate.
Qed.

Lemma phase_idle s : phase s = Idle <-> gameStarted s = false.
Proof.
  unfold phase. destruct (gameStarted s), (gameOver s); cbn;
    split; intros H; try discriminate; auto.
Qed.

Lemma phase_over s :
  phase s = GameOver <-> gameStarted s = true /\ gameOver s = true.
Proof.
  unfold phase. destruct (gameStarted s), (gameOver s); cbn;
    split; intros H; try discriminate; auto; destruct H; discriminate.
Qed.

Lemma draw_state s : state_of (draw s) = s.
Proof.
  unfold draw. destruct (isPressing s && Player.onGround (player s));
    [|reflexivity].
  destruct (nth_error (platforms s) (currentPlatformId s)); [|reflexivity].
  destruct (nth_error (platforms s) (targetPlatformId s)); reflexivity.
Qed.

Lemma draw_done s s' : draw s = Done s' -> s' = s.
Proof.
  intros Hd. pose proof (draw_state s) as Hs. rewrite Hd in Hs.
  exact Hs.
Qed.

Lemma draw_idle s : isPressing s = false -> draw s = Done s.
Proof. intros Hp. unfold draw. rewrite Hp. reflexivity. Qed.

Lemma draw_airborne s : Player.onGround (player s) = false -> draw s = Done s.
Proof.
  intros Hog. unfold draw. rewrite Hog, andb_false_r. reflexivity.
Qed.

Lemma state_of_andThen_draw o : state_of (o >>= draw) = state_of o.
Proof. destruct o as [s|s]; cbn; [apply draw_state | reflexivity]. Qed.

(** ** The launch *)

Lemma hypot_length (a b : Vector2) :
  Rmax 1 (hypot (x b - x a) (y b - y a)) = spec_length a b.
Proof.
  unfold hypot, spec_length. do 2 f_equal. ring.
Qed.

(** What a press-release does once its guards have passed. *)
Lemma onTouchEnd_launch s now current target :
  gameStarted s = true -> gameOver s = false -> isPressing s = true ->
  nth_error (platforms s) (currentPlatformId s) = Some current ->
  nth_error (platforms s) (targetPlatformId s) = Some target ->
  onTouchEnd now s =
  Done (set_player (set_press s (pressStartTime s) false)
          (Player.mk (Player.position (player s))
                     (computeLaunch (now - pressStartTime s)
                                    (Platform.position current)
                                    (Platform.position target)
                                    (canvasWidth s))
                     (Player.radius (player s)) false)).
Proof.
  intros Hs Ho Hp Hc Ht. unfold onTouchEnd.
  rewrite Hs, Ho, Hp, Hc, Ht. cbn [negb orb].
  unfold computeLaunch, spec_direction, spec_power.
  rewrite <- hypot_length. reflexivity.
Qed.

Lemma onTouchEnd_ignored s now :
  phase s <> Playing \/ isPressing s = false -> onTouchEnd now s = Done s.
Proof.
  intros Hg. unfold onTouchEnd.
  destruct (gameStarted s) eqn:Hs, (gameOver s) eqn:Ho; cbn [negb orb];
    try reflexivity.
  destruct Hg as [Hg|Hg].
  - exfalso. apply Hg. apply phase_playing. auto.
  - rewrite Hg. reflexivity.
Qed.

Lemma spec_length_floor a b : 1 <= spec_length a b.
Proof. unfold spec_length. apply Rmax_l. Qed.

(** The scenario of the specification: a 500 ms press on a 400 px wide
    window charges a power of 840, and any press of 1.2 s or more charges
    the same as one of 1.2 s. *)
Example power_500ms : spec_power 500 400 = 840.
Proof.
  unfold spec_power, chargeFactor. rewrite Rmin_left by lra. lra.
Qed.

Example power_saturates ms W :
  1200 <= ms -> spec_power ms W = spec_power 1200 W.
Proof.
  intros Hms. unfold spec_power. rewrite !Rmin_right by lra. reflexivity.
Qed.

(** C8: the velocity a press-release applies is the launch formula of the
    specification: power [min(ms / 1000, 1.2) * chargeFactor * width]
    (saturating from 1.2 s on), direction the centre difference divided by
    [max(1, length)] (a divisor of at least 1, never zero), horizontal part
    scaled by [horizontalFactor], vertical part [dir.y * power * 0.4 -
    power * 0.8]; this for any press duration and any pair of platforms. *)
Theorem launch_formula s now current target :
  phase s = Playing -> isPressing s = true ->
  nth_error (platforms s) (currentPlatformId s) = Some current ->
  nth_error (platforms s) (targetPlatformId s) = Some target ->
  let ms := now - pressStartTime s in
  let c := Platform.position current in
  let g := Platform.position target in
  let len := Rmax 1 (sqrt ((x g - x c) ^ 2 + (y g - y c) ^ 2)) in
  let power := Rmin (ms / 1000) 1.2 * chargeFactor * canvasWidth s in
  exists s',
    onTouchEnd now s = Done s' /\
    Player.onGround (player s') = false /\
    Player.velocity (player s') = computeLaunch ms c g (canvasWidth s) /\
    x (Player.velocity (player s'))
      = (x g - x c) / len * power * horizontalFactor /\
    y (Player.velocity (player s'))
      = (y g - y c) / len * power * 0.4 - power * 0.8 /\
    1 <= len /\
    (1200 <= ms -> power = 1.2 * chargeFactor * canvasWidth s).
Proof.
  intros Hph Hp Hc Ht ms c g len power.
  apply phase_playing in Hph as [Hs Ho].
  eexists. split; [apply onTouchEnd_launch; eassumption|].
  cbn [set_player player Player.onGround Player.velocity].
  repeat split.
  - apply (spec_length_floor c g).
  - intros Hms. subst power. rewrite Rmin_right by lra. reflexivity.
Qed.

Lemma launch_formula_witness :
  exists s',
    onTouchEnd 1500 airborne_pressing = Done s' /\
    y (Player.velocity (player s')) = - 168.
Proof.
  destruct (launch_formula airborne_pressing 1500 (plat0 30) (plat 1 52)
              eq_refl eq_refl eq_refl eq_refl)
    as (s' & Hd & _ & _ & _ & Hy & _ & _).
  exists s'. split; [exact Hd|]. rewrite Hy.
  cbn [airborne_pressing pressing pressStartTime canvasWidth plat0 plat
       Platform.position x y].
  unfold chargeFactor. rewrite Rmin_left by lra. lra.
Defined.

(** ** Landing detection *)

Lemma checkLanding_spec s platform :
  checkLanding s platform = true <->
  (x (Platform.position platform) - x (Platform.size platform) / 2
     <= x (Player.position (player s))
     <= x (Platform.position platform) + x (Platform.size platform) / 2) /\
  (y (Platform.position platform) - y (Platform.size platform) / 2 - 2
     <= y (Player.position (player s)) + Player.radius (player s)
     <= y (Platform.position platform) + y (Platform.size platform) / 2 + 4)
  /\ 0 <= y (Player.velocity (player s)).
Proof.
  unfold checkLanding. rewrite !andb_true_iff, !Rgeb_spec, !Rleb_spec.
  tauto.
Qed.

Lemma fellBelow_spec s :
  fellBelow s = true <->
  y (Player.position (player s)) - Player.radius (player s)
  > canvasHeight s + 80.
Proof. unfold fellBelow. rewrite Rgtb_spec. unfold Rgt. tauto. Qed.

(** [recenterWorld] moves geometry along the x axis and renumbers; it
    leaves everything else of the page alone, also when it throws. *)
Lemma recenterWorld_frame s :
  let s' := state_of (recenterWorld s) in
  gameStarted s' = gameStarted s /\ gameOver s' = gameOver s /\
  ctx s' = ctx s /\ isPressing s' = isPressing s /\
  canvasWidth s' = canvasWidth s /\ canvasHeight s' = canvasHeight s /\
  y (Player.position (player s')) = y (Player.position (player s)) /\
  Player.velocity (player s') = Player.velocity (player s) /\
  Player.radius (player s') = Player.radius (player s) /\
  Player.onGround (player s') = Player.onGround (player s).
Proof.
  unfold recenterWorld.
  destruct (nth_error (platforms s) (currentPlatformId s)) as [c|];
    [|cbn; tauto].
  destruct (Req_dec_T _ _); [cbn; tauto|].
  destruct (8 <? _)%nat; [|cbn; tauto].
  cbn [shiftWorld set_platforms platforms set_player].
  destruct (slice_last 6 _); cbn; tauto.
Qed.

(** ** Evaluating the concrete sessions *)

Lemma exec_app es1 es2 s : exec (es1 ++ es2) s = exec es1 s >>= exec es2.
Proof.
  revert s. induction es1 as [|e es1 IH]; intros s; [reflexivity|].
  cbn [app exec]. destruct (step e s) as [s'|s']; cbn [andThen];
    [apply IH | reflexivity].
Qed.

Lemma exec_single e s : exec [e] s = step e s.
Proof. cbn [exec]. destruct (step e s); reflexivity. Qed.

Lemma valid_draws sgn : 0 <= sgn < 1 -> valid_rand (draws sgn).
Proof. intros Hs. repeat split; unfold draws; cbn; lra. Qed.

Lemma round_30 : round (100 * 0.3) = 30.
Proof. apply (round_eq 30). lra. Qed.

(** The generator on the 100 by 200 window, for the draws used here. *)
Lemma generate_100_200 sgn prev :
  y (Platform.position prev) = 140 ->
  generateNextPlatform 100 200 (draws sgn) prev =
  plat (S (Platform.id prev))
       (clamp (x (Platform.position prev)
               + (if Rgtb sgn 0.5 then 22 else -22)) 18 82).
Proof.
  intros Hy.
  unfold generateNextPlatform, signedDx, minDx, maxDx, draws, plat, randInt.
  cbn [r_dx r_sign r_width r_y r_color]. rewrite Hy.
  rewrite (round_eq 22 (100 * 0.22)), (round_eq 45 (100 * 0.45)),
          (round_eq 16 (100 * 0.16)), (round_eq 28 (100 * 0.28)),
          (round_eq 18 (100 * 0.18)), (round_eq 82 (100 * 0.82)),
          (round_eq 12 (200 * 0.06)), (round_eq 70 (200 * 0.35)),
          (round_eq 160 (200 * 0.8)) by lra.
  rewrite (floor_eq 0 (0 * (45 - 22 + 1))), (floor_eq 12 (0.95 * _)),
          (floor_eq 12 (0.5 * _)), (floor_eq 0 (0 * (3 - 0 + 1))) by lra.
  rewrite (round_eq 8) by lra.
  f_equal.
  - f_equal.
    + f_equal. destruct (Rgtb _ _); lra.
    + rewrite clamp_inside by lra. lra.
  - f_equal; [lra|]. apply Rmax_left. lra.
  - unfold palette_at. rewrite Rleb_true by lra.
    replace (0 + 0) with 0 by lra. rewrite (ZfloorZ 0). reflexivity.
Qed.

Lemma resetWorld_100_200 sgn s :
  canvasWidth s = 100 -> canvasHeight s = 200 ->
  resetWorld (draws sgn) s =
  mkPage (gameStarted s) (gameOver s) (showOverlay s) 0 (ctx s) 100 200
         (Player.mk (mkVector2 30 129) (mkVector2 0 0) 5 true)
         [plat0 30; plat 1 (if Rgtb sgn 0.5 then 52 else 18)]
         0 1 (pressStartTime s) (isPressing s).
Proof.
  intros HW HH. unfold resetWorld. rewrite HW, HH.
  rewrite (round_eq 5 (100 / 20)), (round_eq 140 (200 * 0.7)), round_30,
          (round_eq 22 (100 * 0.22)), (round_eq 6 (100 * 0.06)) by lra.
  rewrite generate_100_200 by reflexivity.
  cbn [Platform.position Platform.id x y]. fold (plat0 30).
  f_equal.
  - do 2 f_equal. lra.
  - do 3 f_equal. destruct (Rgtb sgn 0.5).
    + rewrite clamp_inside by lra. lra.
    + rewrite clamp_below by lra. lra.
Qed.

(** A tap of zero duration launches with zero power: the player leaves
    the ground with no velocity. *)
Lemma tap_exec t s c g :
  gameStarted s = true -> gameOver s = false ->
  nth_error (platforms s) (currentPlatformId s) = Some c ->
  nth_error (platforms s) (targetPlatformId s) = Some g ->
  exec [ETouchStart t; ETouchEnd t] s =
  Done (set_player (set_press s t false)
          (Player.mk (Player.position (player s)) (mkVector2 0 0)
                     (Player.radius (player s)) false)).
Proof.
  intros Hs Ho Hc Hg.
  cbn [exec step andThen]. unfold onTouchStart. rewrite Hs, Ho.
  cbn [negb orb].
  rewrite (onTouchEnd_launch _ _ c g) by (try reflexivity; assumption).
  cbn [andThen exec set_press pressStartTime player canvasWidth].
  do 3 f_equal. unfold computeLaunch, spec_power.
  replace (t - t) with 0 by ring.
  rewrite Rmin_left by lra. f_equal; lra.
Qed.

Lemma update_lands dt rnd s target :
  ctx s = true -> Player.onGround (player s) = false ->
  nth_error (platforms s) (targetPlatformId s) = Some target ->
  checkLanding (set_player s (integrate dt (player s))) target = true ->
  update dt rnd s =
  land rnd target (set_player s (integrate dt (player s)))
  >>= (fun s2 => Done (if fellBelow s2 then endGame s2 else s2)) >>= draw.
Proof.
  intros Hc Hg Ht Hl. unfold update. rewrite Hc, Hg. cbn [negb].
  cbn [set_player platforms targetPlatformId]. rewrite Ht.
  unfold set_player in Hl |- *. rewrite Hl. reflexivity.
Qed.

Lemma update_misses dt rnd s target :
  ctx s = true -> Player.onGround (player s) = false ->
  nth_error (platforms s) (targetPlatformId s) = Some target ->
  checkLanding (set_player s (integrate dt (player s))) target = false ->
  update dt rnd s =
  Done (let s1 := set_player s (integrate dt (player s)) in
        if fellBelow s1 then endGame s1 else s1).
Proof.
  intros Hc Hg Ht Hl. unfold update. rewrite Hc, Hg. cbn [negb].
  cbn [set_player platforms targetPlatformId]. rewrite Ht.
  unfold set_player in Hl |- *. rewrite Hl. cbn [andThen].
  apply draw_airborne. destruct (fellBelow _); exact Hg.
Qed.

Ltac page_fields :=
  cbv [set_player set_press set_ids set_platforms set_score set_flags
       world integrate endGame shiftWorld touchDown player platforms canvasWidth canvasHeight
       score gameStarted gameOver showOverlay ctx currentPlatformId
       targetPlatformId pressStartTime isPressing Player.position
       Player.velocity Player.radius Player.onGround gravity].

Ltac geometry :=
  cbv [plat plat0 shiftPlatform shiftPlayer Platform.position Platform.size
       Platform.id Platform.color Player.position Player.velocity
       Player.radius Player.onGround x y].

Ltac Rclamp :=
  repeat first [ rewrite clamp_inside by lra | rewrite clamp_below by lra ].

Ltac same_page :=
  unfold world; geometry; repeat (try lra; f_equal).

(** One [hop] from a resting [world]: the tap, then the frame that lands
    on the target [g], appends a platform and recenters. *)
Ltac eval_hop c g :=
  unfold hop;
  match goal with
  | |- exec [ETouchStart ?t; ETouchEnd ?t; ?tick] _ = _ =>
      change [ETouchStart t; ETouchEnd t; tick]
        with ([ETouchStart t; ETouchEnd t] ++ [tick]);
      rewrite exec_app, (tap_exec t _ c g) by reflexivity
  end;
  cbn [andThen exec step];
  rewrite (update_lands _ _ _ g);
    [ | reflexivity | reflexivity | reflexivity
      | page_fields; unfold checkLanding; page_fields; geometry; Rbool;
        reflexivity ];
  unfold land; page_fields; cbn [app];
  rewrite generate_100_200 by reflexivity;
  cbn [Platform.id Platform.position plat x]; Rbool; Rclamp;
  unfold recenterWorld; page_fields; cbn [nth_error];
  try rewrite round_30.

(** The rest of the frame once [recenterWorld] has shifted the world. *)
Ltac finish_frame :=
  cbv [map Datatypes.length Nat.ltb Nat.leb slice_last skipn Nat.sub];
  page_fields; cbn [andThen];
  unfold fellBelow; page_fields; geometry; Rbool;
  unfold draw; page_fields; cbn [andb andThen];
  same_page.

Ltac shifted :=
  destruct (Req_dec_T _ _) as [e|_]; [exfalso; revert e; geometry; lra|].

Lemma init_100_200 sgn :
  initCanvas 100 200 (draws sgn) =
  mkPage false false true 0 true 100 200
         (Player.mk (mkVector2 30 129) (mkVector2 0 0) 5 true)
         [plat0 30; plat 1 (if Rgtb sgn 0.5 then 52 else 18)] 0 1 0 false.
Proof. unfold initCanvas. rewrite resetWorld_100_200; reflexivity. Qed.

Lemma start_100_200 sgn sgn' :
  startGame (draws sgn') (initCanvas 100 200 (draws sgn)) =
  world [plat0 30; plat 1 (if Rgtb sgn' 0.5 then 52 else 18)] 0 1 0 30 129 0.
Proof.
  rewrite init_100_200. unfold startGame. cbn [gameStarted].
  rewrite resetWorld_100_200; reflexivity.
Qed.

Lemma hop1 :
  exec (hop 1000 0.75) (world [plat0 30; plat 1 18] 0 1 0 30 129 0)
  = Done (world [plat0 42; plat 1 30; plat 2 52] 1 2 1 42 129.512 1000).
Proof. eval_hop (plat0 30) (plat 1 18). shifted. finish_frame. Qed.

Lemma hop2 :
  exec (hop 2000 0.25)
       (world [plat0 42; plat 1 30; plat 2 52] 1 2 1 42 129.512 1000)
  = Done (world [plat0 20; plat 1 8; plat 2 30; plat 3 8]
                2 3 2 20 130.024 2000).
Proof. eval_hop (plat 1 30) (plat 2 52). shifted. finish_frame. Qed.

Lemma hop3 :
  exec (hop 3000 0.75)
       (world [plat0 20; plat 1 8; plat 2 30; plat 3 8] 2 3 2 20 130.024 2000)
  = Done (world [plat0 42; plat 1 30; plat 2 52; plat 3 30; plat 4 52]
                3 4 3 42 130.536 3000).
Proof. eval_hop (plat 2 30) (plat 3 8). shifted. finish_frame. Qed.

Lemma hop4 :
  exec (hop 4000 0.25)
       (world [plat0 42; plat 1 30; plat 2 52; plat 3 30; plat 4 52]
              3 4 3 42 130.536 3000)
  = Done (world [plat0 20; plat 1 8; plat 2 30; plat 3 8; plat 4 30;
                 plat 5 8] 4 5 4 20 131.048 4000).
Proof. eval_hop (plat 3 30) (plat 4 52). shifted. finish_frame. Qed.

Lemma hop5 :
  exec (hop 5000 0.75)
       (world [plat0 20; plat 1 8; plat 2 30; plat 3 8; plat 4 30; plat 5 8]
              4 5 4 20 131.048 4000)
  = Done (world [plat0 42; plat 1 30; plat 2 52; plat 3 30; plat 4 52;
                 plat 5 30; plat 6 52] 5 6 5 42 131.56 5000).
Proof. eval_hop (plat 4 30) (plat 5 8). shifted. finish_frame. Qed.

Lemma hop6 :
  exec (hop 6000 0.25)
       (world [plat0 42; plat 1 30; plat 2 52; plat 3 30; plat 4 52;
               plat 5 30; plat 6 52] 5 6 5 42 131.56 5000)
  = Done (world [plat0 20; plat 1 8; plat 2 30; plat 3 8; plat 4 30;
                 plat 5 8; plat 6 30; plat 7 8] 6 7 6 20 132.072 6000).
Proof. eval_hop (plat 5 30) (plat 6 52). shifted. finish_frame. Qed.

Lemma approach_trace_exec :
  exec approach_trace (initCanvas 100 200 (draws 0.25)) = Done crowded.
Proof.
  unfold approach_trace. cbn [exec step]. rewrite start_100_200.
  rewrite Rgtb_false by lra. cbn [andThen].
  rewrite exec_app, hop1. cbn [andThen].
  rewrite exec_app, hop2. cbn [andThen].
  rewrite exec_app, hop3. cbn [andThen].
  rewrite exec_app, hop4. cbn [andThen].
  rewrite exec_app, hop5. cbn [andThen].
  apply hop6.
Qed.

Lemma poised_exec :
  exec [ETouchStart 7000; ETouchEnd 7000] crowded = Done poised.
Proof.
  rewrite (tap_exec 7000 _ (plat 6 30) (plat 7 8)) by reflexivity.
  reflexivity.
Qed.

Lemma poised_lands :
  checkLanding (set_player poised (integrate 0.016 (player poised)))
               (plat 7 8) = true.
Proof.
  unfold poised, crowded, checkLanding. page_fields. geometry. Rbool.
  reflexivity.
Qed.

(** The seventh landing makes nine platforms; the trim keeps ids 3 to 8
    and renumbers the current platform to 3, the target to 4. *)
Lemma eviction_update : update 0.016 (draws 0.75) poised = Done evicted.
Proof.
  rewrite (update_lands _ _ _ (plat 7 8));
    [ | reflexivity | reflexivity | reflexivity | apply poised_lands ].
  unfold poised, crowded, land. page_fields. cbn [app].
  rewrite generate_100_200 by reflexivity.
  cbn [Platform.id Platform.position plat x]. Rbool. Rclamp.
  unfold recenterWorld. page_fields. cbn [nth_error].
  rewrite round_30. shifted. unfold evicted. finish_frame.
Qed.

Lemma eviction_trace_exec :
  exec eviction_trace (initCanvas 100 200 (draws 0.25)) = Done evicted.
Proof.
  unfold eviction_trace, hop.
  change [ETouchStart 7000; ETouchEnd 7000; ETick 0.016 (draws 0.75)]
    with ([ETouchStart 7000; ETouchEnd 7000] ++ [ETick 0.016 (draws 0.75)]).
  rewrite exec_app, approach_trace_exec. cbn [andThen].
  rewrite exec_app, poised_exec. cbn [andThen].
  rewrite exec_single. apply eviction_update.
Qed.

(** After the trim the target index 4 holds platform 7, the one the
    player stands on. The tap sends the player up and the next frame lands
    on it again; the landing sets the current id to 7, appends a second
    platform 8, and [recenterWorld] reads index 7 of a 7-element array. *)
Lemma relaunch_exec :
  exec [ETouchStart 8000; ETouchEnd 8000] evicted = Done relaunched.
Proof.
  rewrite (tap_exec 8000 _ (plat 6 52) (plat 7 30)) by reflexivity.
  reflexivity.
Qed.

Lemma crash_update :
  update 0.016 (draws 0.75) relaunched = Fault crashed.
Proof.
  unfold relaunched, evicted.
  rewrite (update_lands _ _ _ (plat 7 30));
    [ | reflexivity | reflexivity | reflexivity
      | page_fields; unfold checkLanding; page_fields; geometry; Rbool;
        reflexivity ].
  unfold land; page_fields; cbn [app].
  rewrite generate_100_200 by reflexivity.
  cbn [Platform.id Platform.position plat x]. Rbool. Rclamp.
  unfold recenterWorld. page_fields. cbn [nth_error andThen].
  unfold crashed. same_page.
Qed.

Lemma valid_hop t sgn : 0 <= sgn < 1 -> Forall valid_event (hop t sgn).
Proof.
  intros Hs. unfold hop.
  constructor; [exact I|]. constructor; [exact I|].
  constructor; [|constructor].
  split; [lra | apply valid_draws, Hs].
Qed.

Lemma valid_tap t : Forall valid_event [ETouchStart t; ETouchEnd t].
Proof. constructor; [exact I|]. constructor; [exact I | constructor]. Qed.

Lemma valid_approach_trace : Forall valid_event approach_trace.
Proof.
  unfold approach_trace. constructor; [apply valid_draws; lra|].
  repeat (apply Forall_app; split); apply valid_hop; lra.
Qed.

Lemma valid_eviction_trace : Forall valid_event eviction_trace.
Proof.
  unfold eviction_trace. apply Forall_app.
  split; [apply valid_approach_trace | apply valid_hop; lra].
Qed.

Lemma reachable_exec W H s es :
  reachable W H s -> Forall valid_event es ->
  reachable W H (state_of (exec es s)).
Proof.
  intros Hs Hes. revert s Hs.
  induction Hes as [|e es He Hes IH]; intros s Hs; [exact Hs|].
  cbn [exec]. pose proof (reach_step W H e s Hs He) as Hstep.
  destruct (step e s) as [s1|s1]; cbn [andThen state_of] in *.
  - apply IH, Hstep.
  - exact Hstep.
Qed.

Lemma reachable_trace r es s :
  valid_rand r -> Forall valid_event es ->
  exec es (initCanvas 100 200 r) = Done s -> reachable 100 200 s.
Proof.
  intros Hr Hes Hx.
  pose proof (reachable_exec 100 200 _ es (reach_init 100 200 r Hr) Hes)
    as Hreach.
  rewrite Hx in Hreach. exact Hreach.
Qed.

Lemma reachable_poised : reachable 100 200 poised.
Proof.
  apply (reachable_trace (draws 0.25)
           (approach_trace ++ [ETouchStart 7000; ETouchEnd 7000])).
  - apply valid_draws; lra.
  - apply Forall_app. split; [apply valid_approach_trace | apply valid_tap].
  - rewrite exec_app, approach_trace_exec. apply poised_exec.
Qed.

Lemma reachable_evicted : reachable 100 200 evicted.
Proof.
  apply (reachable_trace (draws 0.25) eviction_trace).
  - apply valid_draws; lra.
  - apply valid_eviction_trace.
  - apply eviction_trace_exec.
Qed.

Lemma reachable_relaunched : reachable 100 200 relaunched.
Proof.
  pose proof (reachable_exec 100 200 evicted
                [ETouchStart 8000; ETouchEnd 8000] reachable_evicted
                (valid_tap 8000)) as Hr.
  rewrite relaunch_exec in Hr. exact Hr.
Qed.

Lemma reachable_crashed : reachable 100 200 crashed.
Proof.
  pose proof (reach_step 100 200 (ETick 0.016 (draws 0.75)) relaunched
                reachable_relaunched) as Hr.
  cbn [step] in Hr. rewrite crash_update in Hr. apply Hr.
  split; [lra | apply valid_draws; lra].
Qed.

(** Free fall beside the target: one frame of 33 ms. *)
Lemma fall_tick over py vy :
  update 0.033 (draws 0.75) (falling over py vy) =
  Done (falling (if Rgtb (py + (vy + 66) * 0.033 - 5) 280
                 then true else over)
                (py + (vy + 66) * 0.033) (vy + 66)).
Proof.
  rewrite (update_misses _ _ _ (plat 1 52));
    [ | reflexivity | reflexivity | reflexivity
      | unfold falling, checkLanding; page_fields; geometry; Rbool;
        reflexivity ].
  cbv zeta. unfold fellBelow, falling. page_fields. cbv [x y].
  replace (2000 * 0.033) with 66 by lra.
  replace (200 + 80) with 280 by lra.
  replace (30 + 0 * 0.033) with 30 by lra.
  destruct (Rgtb _ _); reflexivity.
Qed.

Lemma fall_trace_exec :
  exec fall_trace (initCanvas 100 200 (draws 0.75)) = Done fallen.
Proof.
  unfold fall_trace. rewrite exec_app.
  change [EStart (draws 0.75); ETouchStart 1000; ETouchEnd 1000]
    with ([EStart (draws 0.75)] ++ [ETouchStart 1000; ETouchEnd 1000]).
  rewrite exec_app, exec_single. cbn [step].
  rewrite start_100_200. rewrite Rgtb_true by lra. cbn [andThen].
  rewrite (tap_exec 1000 _ (plat0 30) (plat 1 52)) by reflexivity.
  cbn [andThen repeat exec step].
  change (set_player _ _) with (falling false 129 0).
  do 12 (rewrite fall_tick; cbn [andThen]; Rbool).
  unfold fallen. f_equal. f_equal; lra.
Qed.

(** ** Invariants *)

Lemma generate_height W H rnd prev :
  0 <= W -> valid_rand rnd ->
  y (Platform.size (generateNextPlatform W H rnd prev)) <= heightBound W.
Proof.
  intros HW (_ & _ & Hw & _). unfold generateNextPlatform, heightBound.
  cbn [Platform.size y].
  assert (Hle : round (W * 0.16) <= round (W * 0.28))
    by (apply round_le; lra).
  pose proof (randInt_upper (r_width rnd) _ _ Hw Hle) as Hwidth.
  pose proof (round_bound (W * 0.28)) as [_ Hmax].
  pose proof (round_bound
                (randInt (r_width rnd) (round (W * 0.16))
                         (round (W * 0.28)) * 0.28)) as [_ Hh].
  apply Rmax_lub; lra.
Qed.

Lemma slice_last_Forall {A} (P : A -> Prop) n l :
  Forall P l -> Forall P (slice_last n l).
Proof.
  intros Hl. unfold slice_last.
  rewrite <- (firstn_skipn (List.length l - n) l) in Hl.
  apply Forall_app in Hl. apply Hl.
Qed.

Lemma slice_last_length {A} n (l : list A) :
  (n <= List.length l)%nat -> List.length (slice_last n l) = n.
Proof. intros Hn. unfold slice_last. rewrite length_skipn. lia. Qed.

Lemma slice_last_6_length {A} (l : list A) :
  (8 < List.length l)%nat -> List.length (slice_last 6 l) = 6%nat.
Proof. intros Hl. apply slice_last_length. lia. Qed.

(** The pages a frame can leave behind, whether it returns or throws. *)
Lemma update_state dt rnd s :
  let s' := state_of (update dt rnd s) in
  let s1 := set_player s (integrate dt (player s)) in
  s' = s \/
  (Player.onGround (player s) = false /\
   (s' = s1 \/ s' = endGame s1 \/
    exists target,
      nth_error (platforms s) (targetPlatformId s) = Some target /\
      checkLanding s1 target = true /\
      let s3 := state_of (recenterWorld (touchDown rnd target s1)) in
      (s' = s3 \/ s' = endGame s3))).
Proof.
  cbv zeta. unfold update.
  destruct (ctx s); cbn [negb]; [|left; reflexivity].
  rewrite state_of_andThen_draw.
  destruct (Player.onGround (player s)) eqn:Hog; cbn [negb];
    [left; reflexivity|].
  right. split; [reflexivity|].
  cbn [set_player platforms targetPlatformId].
  fold (set_player s (integrate dt (player s))).
  destruct (nth_error (platforms s) (targetPlatformId s)) as [target|] eqn:Ht;
    [|left; reflexivity].
  destruct (checkLanding _ target) eqn:Hl.
  - right. right. exists target. split; [reflexivity|]. split; [exact Hl|].
    unfold land. destruct (recenterWorld _) as [s3|s3]; cbn [andThen state_of].
    + destruct (fellBelow s3); auto.
    + auto.
  - cbn [andThen state_of]. destruct (fellBelow _); auto.
Qed.

Lemma recenterWorld_ids s :
  targetPlatformId s = S (currentPlatformId s) ->
  let s' := state_of (recenterWorld s) in
  targetPlatformId s' = S (currentPlatformId s').
Proof.
  intros Hid. cbv zeta. unfold recenterWorld.
  destruct (nth_error (platforms s) (currentPlatformId s)); [|exact Hid].
  destruct (Req_dec_T _ _); [exact Hid|].
  destruct (8 <? _)%nat; [|exact Hid].
  cbn [shiftWorld set_platforms platforms set_player].
  destruct (slice_last 6 _); [exact Hid | reflexivity].
Qed.

(** [recenterWorld] keeps the number of platforms or trims it to 6. *)
Lemma recenterWorld_length s :
  let s' := state_of (recenterWorld s) in
  List.length (platforms s') = List.length (platforms s) \/
  ((8 < List.length (platforms s))%nat /\ List.length (platforms s') = 6%nat).
Proof.
  cbv zeta. unfold recenterWorld.
  destruct (nth_error (platforms s) (currentPlatformId s)); [|left; reflexivity].
  destruct (Req_dec_T _ _); [left; reflexivity|].
  cbn [shiftWorld set_platforms platforms set_player].
  rewrite length_map.
  destruct (8 <? _)%nat eqn:Hlen.
  - apply Nat.ltb_lt in Hlen. right. split; [exact Hlen|].
    assert (H6 : List.length
                   (slice_last 6 (map (shiftPlatform
                      (round (canvasWidth s * 0.3) - x (Platform.position t)))
                      (platforms s))) = 6%nat)
      by (apply slice_last_6_length; rewrite length_map; exact Hlen).
    destruct (slice_last 6 _); cbn [state_of set_ids platforms] in *;
      exact H6.
  - left. cbn [state_of platforms]. apply length_map.
Qed.

Lemma update_ids dt rnd s :
  targetPlatformId s = S (currentPlatformId s) ->
  let s' := state_of (update dt rnd s) in
  targetPlatformId s' = S (currentPlatformId s').
Proof.
  intros Hid. cbv zeta.
  destruct (update_state dt rnd s) as [->|(_ & [->| [->| (g & _ & _ & Hs)]])];
    try exact Hid.
  cbv zeta in Hs.
  assert (H3 : targetPlatformId
                 (state_of (recenterWorld
                    (touchDown rnd g (set_player s (integrate dt (player s))))))
               = S (currentPlatformId
                 (state_of (recenterWorld
                    (touchDown rnd g (set_player s (integrate dt (player s))))))))
    by (apply recenterWorld_ids; reflexivity).
  destruct Hs as [->| ->]; exact H3.
Qed.

Lemma recenterWorld_wf W H s :
  wellFormed W H s -> wellFormed W H (state_of (recenterWorld s)).
Proof.
  intros Hwf. pose proof (recenterWorld_ids s (wf_ids _ _ _ Hwf)) as Hids.
  pose proof (recenterWorld_frame s) as Hfr. cbv zeta in Hids, Hfr.
  destruct Hfr as (Hs & _ & Hc & _ & HW & HH & _ & _ & Hr & Hog).
  destruct Hwf as [wC wW wH wI wR wS wG].
  constructor; try congruence.
  - intros HW0. specialize (wS HW0). unfold recenterWorld.
    destruct (nth_error (platforms s) (currentPlatformId s)); [|exact wS].
    destruct (Req_dec_T _ _); [exact wS|].
    assert (Hmap : Forall (fun p => y (Platform.size p) <= heightBound W)
                     (map (shiftPlatform
                        (round (canvasWidth s * 0.3) - x (Platform.position t)))
                        (platforms s))).
    { apply Forall_map. exact wS. }
    cbn [shiftWorld set_platforms platforms set_player].
    destruct (8 <? _)%nat; [|exact Hmap].
    apply (slice_last_Forall _ 6) in Hmap.
    destruct (slice_last 6 _); cbn [state_of set_ids platforms]; exact Hmap.
  - intros Hst. rewrite Hog. apply wG. congruence.
Qed.

Lemma endGame_wf W H s : wellFormed W H s -> wellFormed W H (endGame s).
Proof.
  intros [wC wW wH wI wR wS wG]. constructor; try assumption.
  intros Hst. discriminate Hst.
Qed.

Lemma resetWorld_wf W H rnd s :
  ctx s = true -> canvasWidth s = W -> canvasHeight s = H ->
  valid_rand rnd -> wellFormed W H (resetWorld rnd s).
Proof.
  intros HC HW HH Hrnd. constructor; try reflexivity; try assumption.
  - cbn. congruence.
  - intros HW0. unfold resetWorld. cbn [platforms]. rewrite HW, HH.
    constructor; [|constructor; [|constructor]].
    + cbn [Platform.size y]. unfold heightBound.
      pose proof (round_bound (W * 0.06)). lra.
    + apply generate_height; assumption.
Qed.

Lemma update_wf W H dt rnd s :
  valid_rand rnd -> wellFormed W H s ->
  wellFormed W H (state_of (update dt rnd s)).
Proof.
  intros Hrnd Hwf.
  assert (Hint : Player.onGround (player s) = false ->
                 wellFormed W H (set_player s (integrate dt (player s)))).
  { intros Hog. destruct Hwf as [wC wW wH wI wR wS wG].
    constructor; assumption. }
  destruct (update_state dt rnd s)
    as [->|(Hog & [->| [->| (g & Hg & _ & Hs)]])]; auto.
  - apply endGame_wf; auto.
  - cbv zeta in Hs. specialize (Hint Hog).
    assert (Htd : wellFormed W H
                    (touchDown rnd g
                               (set_player s (integrate dt (player s))))).
    { destruct Hint as [wC wW wH wI wR wS wG].
      constructor; try assumption; try reflexivity.
      - intros HW0. unfold touchDown.
        cbn [set_score set_platforms set_ids set_player platforms
             canvasWidth canvasHeight].
        apply Forall_app. split; [exact (wS HW0)|].
        constructor; [|constructor].
        cbn [canvasWidth canvasHeight set_player] in wW, wH.
        rewrite wW, wH. apply generate_height; assumption. }
    apply recenterWorld_wf in Htd.
    destruct Hs as [->| ->]; [|apply endGame_wf]; exact Htd.
Qed.

Lemma onTouchEnd_state now s :
  let s' := state_of (onTouchEnd now s) in
  s' = s \/
  (gameStarted s = true /\
   (s' = set_press s (pressStartTime s) false \/
    exists v,
      s' = set_player (set_press s (pressStartTime s) false)
             (Player.mk (Player.position (player s)) v
                        (Player.radius (player s)) false))).
Proof.
  cbv zeta. unfold onTouchEnd.
  destruct (gameStarted s); cbn [negb orb]; [|left; reflexivity].
  destruct (gameOver s); [left; reflexivity|].
  destruct (isPressing s); cbn [negb]; [|left; reflexivity].
  right. split; [reflexivity|].
  destruct (nth_error (platforms s) (currentPlatformId s));
    [|left; reflexivity].
  destruct (nth_error (platforms s) (targetPlatformId s));
    [|left; reflexivity].
  right. eexists. reflexivity.
Qed.

Lemma step_wf W H e s :
  valid_event e -> wellFormed W H s -> wellFormed W H (state_of (step e s)).
Proof.
  intros He Hwf. destruct e as [rnd|rnd|now|now|dt rnd]; cbn [step state_of].
  - unfold startGame. destruct (gameStarted s); [exact Hwf|].
    apply resetWorld_wf; [apply Hwf | apply Hwf | apply Hwf | exact He].
  - apply resetWorld_wf; [apply Hwf | apply Hwf | apply Hwf | exact He].
  - unfold onTouchStart. destruct (negb (gameStarted s) || gameOver s);
      [exact Hwf|].
    destruct Hwf as [wC wW wH wI wR wS wG]. constructor; assumption.
  - destruct Hwf as [wC wW wH wI wR wS wG].
    destruct (onTouchEnd_state now s) as [->|(Hst & [->|(v & ->)])];
      constructor; try assumption; intros Hst'; cbn in Hst'; congruence.
  - apply update_wf; [apply He | exact Hwf].
Qed.

Lemma reachable_wf W H s : reachable W H s -> wellFormed W H s.
Proof.
  induction 1 as [rnd Hrnd | e s Hs IH He].
  - apply resetWorld_wf; [reflexivity | reflexivity | reflexivity | exact Hrnd].
  - apply step_wf; assumption.
Qed.

(** ** Where the faults come from *)

Lemma ids_lookup s i p k :
  ids s = seq k (List.length (platforms s)) ->
  nth_error (platforms s) i = Some p -> Platform.id p = (k + i)%nat.
Proof.
  intros Hids Hp. unfold ids in Hids.
  pose proof (map_nth_error Platform.id _ _ Hp) as Hm.
  rewrite Hids in Hm.
  assert (Hi : (i < List.length (platforms s))%nat).
  { apply nth_error_Some. congruence. }
  rewrite nth_error_seq in Hm.
  destruct (Nat.ltb_spec i (List.length (platforms s))); [|lia].
  congruence.
Qed.

Lemma lookup_some {A} (l : list A) i :
  (i < List.length l)%nat -> exists a, nth_error l i = Some a.
Proof.
  intros Hi. destruct (nth_error l i) eqn:Hn; [eauto|].
  apply nth_error_None in Hn. lia.
Qed.

Lemma ids_shift dx ps :
  map Platform.id (map (shiftPlatform dx) ps) = map Platform.id ps.
Proof. rewrite map_map. reflexivity. Qed.

Lemma untrimmed_release now s :
  untrimmed s -> faulted (onTouchEnd now s) = false.
Proof.
  intros (_ & Hlen & Htgt). unfold onTouchEnd.
  destruct (negb (gameStarted s) || gameOver s); [reflexivity|].
  destruct (negb (isPressing s)); [reflexivity|].
  destruct (lookup_some (platforms s) (currentPlatformId s)) as [c Hc];
    [lia|].
  destruct (lookup_some (platforms s) (targetPlatformId s)) as [g Hg];
    [lia|].
  rewrite Hc, Hg. reflexivity.
Qed.

Lemma untrimmed_frame s s' :
  untrimmed s -> platforms s' = platforms s ->
  currentPlatformId s' = currentPlatformId s ->
  targetPlatformId s' = targetPlatformId s -> untrimmed s'.
Proof.
  unfold untrimmed, ids. intros Hu Hp Hc Ht. rewrite Hp, Hc, Ht. exact Hu.
Qed.

Lemma trimmed_frame s s' :
  trimmed s -> platforms s' = platforms s ->
  currentPlatformId s' = currentPlatformId s ->
  targetPlatformId s' = targetPlatformId s -> trimmed s'.
Proof.
  unfold trimmed, ids. intros Hu Hp Hc Ht. rewrite Hp, Hc, Ht. exact Hu.
Qed.

Lemma resetWorld_untrimmed rnd s : untrimmed (resetWorld rnd s).
Proof. repeat split. Qed.

Lemma untrimmed_draw s : untrimmed s -> draw s = Done s.
Proof.
  intros (_ & Hlen & Htgt). unfold draw.
  destruct (isPressing s && Player.onGround (player s)); [|reflexivity].
  destruct (lookup_some (platforms s) (currentPlatformId s)) as [c Hc];
    [lia|].
  destruct (lookup_some (platforms s) (targetPlatformId s)) as [g Hg];
    [lia|].
  rewrite Hc, Hg. reflexivity.
Qed.

(** [recenterWorld] after an untrimmed landing returns, and either keeps
    ids and indices aligned or trims. *)
Lemma recenterWorld_shape s :
  untrimmed s ->
  exists s', recenterWorld s = Done s' /\ (untrimmed s' \/ trimmed s').
Proof.
  intros Hu. pose proof Hu as (Hids & Hlen & Htgt). unfold recenterWorld.
  destruct (lookup_some (platforms s) (currentPlatformId s)) as [c Hc];
    [lia|].
  rewrite Hc.
  destruct (Req_dec_T _ _) as [_|_]; [eauto|].
  set (dx := round (canvasWidth s * 0.3) - x (Platform.position c)).
  cbn [shiftWorld set_platforms set_player platforms].
  rewrite length_map.
  destruct (8 <? List.length (platforms s))%nat eqn:H8.
  - apply Nat.ltb_lt in H8.
    assert (Hsl : map Platform.id
                    (slice_last 6 (map (shiftPlatform dx) (platforms s)))
                  = seq (List.length (platforms s) - 6) 6).
    { unfold slice_last. rewrite <- skipn_map, ids_shift, length_map.
      fold (ids s). rewrite Hids, skipn_seq. f_equal; lia. }
    destruct (slice_last 6 (map (shiftPlatform dx) (platforms s)))
      as [|first rest] eqn:Hs; [discriminate Hsl|].
    eexists. split; [reflexivity|]. right.
    exists (List.length (platforms s) - 6)%nat.
    cbn [map seq] in Hsl. injection Hsl as Hfirst Hrest.
    split; [lia|]. split; [|split].
    + unfold ids. cbn. rewrite Hfirst, Hrest. reflexivity.
    + cbn. exact Hfirst.
    + cbn. rewrite Hfirst. reflexivity.
  - eexists. split; [reflexivity|]. left.
    unfold untrimmed, ids. cbn. rewrite ids_shift, length_map. exact Hu.
Qed.

Lemma touchDown_untrimmed rnd target s :
  untrimmed s ->
  nth_error (platforms s) (targetPlatformId s) = Some target ->
  untrimmed (touchDown rnd target s).
Proof.
  intros (Hids & Hlen & Htgt) Ht.
  pose proof (ids_lookup s _ _ 0 Hids Ht) as Hid. cbn in Hid.
  unfold untrimmed, ids, touchDown.
  cbn [set_score set_platforms set_ids set_player platforms
       currentPlatformId targetPlatformId].
  rewrite map_app, length_app. cbn [map List.length].
  rewrite generate_id. fold (ids s). rewrite Hids, Hid, Hlen, Htgt.
  repeat split; try lia.
  replace (S (S (currentPlatformId s)) + 1)%nat
    with (S (S (S (currentPlatformId s)))) by lia.
  rewrite (seq_S (S (S (currentPlatformId s)))). reflexivity.
Qed.

(** A frame on an untrimmed page returns and stays untrimmed, unless it
    trims. *)
Lemma update_shape dt rnd s :
  untrimmed s ->
  (faulted (update dt rnd s) = false /\ untrimmed (state_of (update dt rnd s)))
  \/ trimmed (state_of (update dt rnd s)).
Proof.
  intros Hu. unfold update.
  destruct (ctx s); cbn [negb]; [|left; split; [reflexivity|exact Hu]].
  destruct (Player.onGround (player s)) eqn:Hog; cbn [negb andThen].
  { left. rewrite (untrimmed_draw s Hu). split; [reflexivity|exact Hu]. }
  cbn [set_player platforms targetPlatformId].
  fold (set_player s (integrate dt (player s))).
  set (s1 := set_player s (integrate dt (player s))).
  assert (Hu1 : untrimmed s1) by (apply (untrimmed_frame s); auto).
  destruct Hu as (Hids & Hlen & Htgt).
  destruct (lookup_some (platforms s) (targetPlatformId s)) as [g Hg];
    [lia|].
  rewrite Hg.
  destruct (checkLanding s1 g).
  - unfold land.
    destruct (recenterWorld_shape (touchDown rnd g s1)) as (s3 & Hrc & Hsh).
    { apply touchDown_untrimmed; assumption. }
    rewrite Hrc. cbn [andThen].
    set (s4 := if fellBelow s3 then endGame s3 else s3).
    assert (Hsh4 : untrimmed s4 \/ trimmed s4).
    { subst s4. destruct (fellBelow s3); [|exact Hsh].
      destruct Hsh as [Hsh|Hsh];
        [left; apply (untrimmed_frame s3) | right; apply (trimmed_frame s3)];
        auto. }
    destruct Hsh4 as [Hsh4|Hsh4].
    + left. rewrite (untrimmed_draw s4 Hsh4). split; [reflexivity|exact Hsh4].
    + right. rewrite draw_state. exact Hsh4.
  - cbn [andThen]. left.
    set (s4 := if fellBelow s1 then endGame s1 else s1).
    assert (Hsh4 : untrimmed s4).
    { subst s4. destruct (fellBelow s1); [|exact Hu1].
      apply (untrimmed_frame s1); auto. }
    rewrite (untrimmed_draw s4 Hsh4). split; [reflexivity|exact Hsh4].
Qed.

(** On a trimmed page the ids are no longer indices: the frame that lands
    always throws. *)
Lemma trimmed_landing_faults dt rnd s target :
  trimmed s -> ctx s = true -> Player.onGround (player s) = false ->
  nth_error (platforms s) (targetPlatformId s) = Some target ->
  checkLanding (set_player s (integrate dt (player s))) target = true ->
  faulted (update dt rnd s) = true.
Proof.
  intros (k & Hk & Hids & Hcur & Htgt) Hc Hog Ht Hl.
  rewrite (update_lands dt rnd s target Hc Hog Ht Hl).
  assert (Hlen : List.length (platforms s) = 6%nat).
  { unfold ids in Hids. apply (f_equal (@List.length nat)) in Hids.
    rewrite length_map, length_seq in Hids. exact Hids. }
  assert (Hid : Platform.id target = (k + S k)%nat).
  { rewrite <- Htgt. apply (ids_lookup s); [|exact Ht].
    rewrite Hlen. exact Hids. }
  unfold land, recenterWorld, touchDown.
  cbn [set_score set_platforms set_ids set_player platforms
       currentPlatformId canvasWidth canvasHeight].
  assert (Hnone : nth_error
                    (platforms s
                     ++ [generateNextPlatform (canvasWidth s) (canvasHeight s)
                                              rnd target])
                    (Platform.id target) = None).
  { apply nth_error_None. rewrite length_app, Hlen, Hid. cbn. lia. }
  rewrite Hnone. reflexivity.
Qed.

Lemma shape_frame s s' :
  untrimmed s \/ trimmed s -> platforms s' = platforms s ->
  currentPlatformId s' = currentPlatformId s ->
  targetPlatformId s' = targetPlatformId s ->
  untrimmed s' \/ trimmed s'.
Proof.
  intros [Hu|Ht] Hp Hc Hg;
    [left; apply (untrimmed_frame s) | right; apply (trimmed_frame s)];
    assumption.
Qed.

Lemma trimmed_update dt rnd s s' :
  trimmed s -> update dt rnd s = Done s' -> trimmed s'.
Proof.
  intros Htr Hup.
  destruct (ctx s) eqn:Hc.
  2:{ unfold update in Hup. rewrite Hc in Hup. cbn in Hup.
      injection Hup as <-. exact Htr. }
  destruct (Player.onGround (player s)) eqn:Hog.
  { unfold update in Hup. rewrite Hc, Hog in Hup. cbn [negb andThen] in Hup.
    apply draw_done in Hup. subst s'. exact Htr. }
  destruct (nth_error (platforms s) (targetPlatformId s)) as [g|] eqn:Hg.
  2:{ unfold update in Hup. rewrite Hc, Hog in Hup. cbn [negb] in Hup.
      cbn [set_player platforms targetPlatformId] in Hup.
      rewrite Hg in Hup. discriminate Hup. }
  destruct (checkLanding (set_player s (integrate dt (player s))) g) eqn:Hl.
  - pose proof (trimmed_landing_faults dt rnd s g Htr Hc Hog Hg Hl) as Hf.
    rewrite Hup in Hf. discriminate Hf.
  - rewrite (update_misses dt rnd s g Hc Hog Hg Hl) in Hup.
    injection Hup as <-. cbv zeta.
    destruct (fellBelow _); apply (trimmed_frame s); auto.
Qed.

Lemma step_shape e s s' :
  untrimmed s \/ trimmed s -> step e s = Done s' ->
  untrimmed s' \/ trimmed s'.
Proof.
  intros Hsh Hstep. destruct e as [rnd|rnd|now|now|dt rnd]; cbn [step] in Hstep.
  - injection Hstep as <-. unfold startGame.
    destruct (gameStarted s); [exact Hsh|].
    left. apply resetWorld_untrimmed.
  - injection Hstep as <-. left. apply resetWorld_untrimmed.
  - injection Hstep as <-. unfold onTouchStart.
    destruct (negb (gameStarted s) || gameOver s); [exact Hsh|].
    apply (shape_frame s); auto.
  - pose proof (onTouchEnd_state now s) as Hst. cbv zeta in Hst.
    rewrite Hstep in Hst. cbn [state_of] in Hst.
    destruct Hst as [->|(_ & [->|(v & ->)])]; [exact Hsh| |];
      apply (shape_frame s); auto.
  - destruct Hsh as [Hu|Ht].
    + destruct (update_shape dt rnd s Hu) as [[_ Hu']|Ht'];
        rewrite Hstep in *; cbn [state_of] in *; auto.
    + right. apply (trimmed_update dt rnd s); assumption.
Qed.

Lemma exec_shape es s s' :
  untrimmed s \/ trimmed s -> exec es s = Done s' ->
  untrimmed s' \/ trimmed s'.
Proof.
  revert s. induction es as [|e es IH]; intros s Hsh Hx; cbn [exec] in Hx.
  - injection Hx as <-. exact Hsh.
  - destruct (step e s) as [s1|s1] eqn:Hstep; cbn [andThen] in Hx;
      [|discriminate Hx].
    apply (IH s1); [|exact Hx]. apply (step_shape e s); assumption.
Qed.

(** In every page reached without a fault the platform ids are
    consecutive, hence strictly increasing. *)
Lemma ids_consecutive_until_fault W H rnd es s :
  exec es (initCanvas W H rnd) = Done s ->
  exists k, ids s = seq k (List.length (platforms s)).
Proof.
  intros Hx.
  destruct (exec_shape es _ s (or_introl (resetWorld_untrimmed rnd _)) Hx)
    as [(Hids & _)|(k & _ & Hids & _)].
  - exists 0%nat. exact Hids.
  - exists k. rewrite Hids. f_equal.
    unfold ids in Hids. apply (f_equal (@List.length nat)) in Hids.
    rewrite length_map, length_seq in Hids. congruence.
Qed.

(** ** The claims on sessions *)

(** The page a landing frame leaves behind. *)
Lemma landing_state dt rnd s target :
  ctx s = true -> Player.onGround (player s) = false ->
  nth_error (platforms s) (targetPlatformId s) = Some target ->
  checkLanding (set_player s (integrate dt (player s))) target = true ->
  let s3 := state_of (recenterWorld
                        (touchDown rnd target
                           (set_player s (integrate dt (player s))))) in
  state_of (update dt rnd s) = s3 \/
  (fellBelow s3 = true /\ state_of (update dt rnd s) = endGame s3).
Proof.
  intros Hc Hog Ht Hl. cbv zeta.
  rewrite (update_lands dt rnd s target Hc Hog Ht Hl).
  rewrite state_of_andThen_draw. unfold land.
  destruct (recenterWorld _) as [s3|s3]; cbn [andThen state_of].
  - destruct (fellBelow s3) eqn:Hf; auto.
  - auto.
Qed.

(** C1 fails on the code: after the trim of the seventh landing the ids
    no longer index the array. On a 100 by 200 window, seven taps that each
    land on the next platform, then an eighth tap: the frame that follows
    lands on array slot 4 (platform 7), sets the current id to 7 and
    [recenterWorld] dereferences slot 7 of a 7-element array. *)
Theorem update_faults_after_eviction :
  let taps := eviction_trace ++ [ETouchStart 8000; ETouchEnd 8000] in
  valid_rand (draws 0.25) /\
  Forall valid_event taps /\
  exec taps (initCanvas 100 200 (draws 0.25)) = Done relaunched /\
  valid_event (ETick 0.016 (draws 0.75)) /\
  update 0.016 (draws 0.75) relaunched = Fault crashed /\
  nth_error (platforms crashed) (currentPlatformId crashed) = None.
Proof.
  cbv zeta. split; [apply valid_draws; lra|]. split.
  { apply Forall_app. split; [apply valid_eviction_trace|].
    constructor; [exact I|]. constructor; [exact I | constructor]. }
  split.
  { rewrite exec_app, eviction_trace_exec. cbn [andThen].
    apply relaunch_exec. }
  split; [split; [lra | apply valid_draws; lra]|].
  split; [apply crash_update | reflexivity].
Qed.

(** C6: the generator numbers a platform one above its predecessor, but
    the platform sequence does not stay strictly increasing: the landing
    that follows a trim generates from array slot 4, which holds platform
    7, and pushes a second platform 8. *)
Theorem duplicate_id_after_eviction :
  (forall W H rnd prev,
      Platform.id (generateNextPlatform W H rnd prev) = S (Platform.id prev))
  /\ reachable 100 200 evicted
  /\ ids evicted = [3; 4; 5; 6; 7; 8]%nat
  /\ option_map Platform.id
       (nth_error (platforms evicted) (targetPlatformId evicted)) = Some 7%nat
  /\ reachable 100 200 crashed
  /\ ids crashed = [3; 4; 5; 6; 7; 8; 8]%nat.
Proof.
  split; [intros; apply generate_id|].
  split; [apply reachable_evicted|].
  split; [reflexivity|]. split; [reflexivity|].
  split; [apply reachable_crashed | reflexivity].
Qed.

(** C10: in a reachable page on a window of positive size, when the
    integrated player passes the landing check against a platform of the
    page whose centre is not below [0.8 * height], the fall condition
    [position.y - radius > height + 80] is false in that frame; when that
    platform is the target, the frame lands and does not end the
    session. *)
Theorem landing_excludes_fall W H s dt rnd target :
  0 < W -> 0 < H -> reachable W H s ->
  Player.onGround (player s) = false ->
  In target (platforms s) ->
  y (Platform.position target) <= 0.8 * H ->
  let s1 := set_player s (integrate dt (player s)) in
  checkLanding s1 target = true ->
  ~ (y (Player.position (player s1)) - Player.radius (player s1)
     > canvasHeight s1 + 80) /\
  fellBelow s1 = false /\
  (nth_error (platforms s) (targetPlatformId s) = Some target ->
   Player.onGround (player (state_of (update dt rnd s))) = true /\
   gameOver (state_of (update dt rnd s)) = gameOver s).
Proof.
  intros HW HH Hreach Hog Hin Hy s1 Hl. apply reachable_wf in Hreach as Hwf.
  assert (Hsize : y (Platform.size target) <= heightBound W).
  { pose proof (wf_sizes _ _ _ Hwf ltac:(lra)) as Hall.
    rewrite Forall_forall in Hall. apply Hall, Hin. }
  assert (Hrad : Player.radius (player s1) = round (W / 20))
    by apply (wf_radius _ _ _ Hwf).
  assert (Hhei : canvasHeight s1 = H) by apply (wf_height _ _ _ Hwf).
  pose proof (round_bound (W / 20)) as [Hr _].
  pose proof (proj1 (checkLanding_spec s1 target) Hl) as (_ & [_ Hbot] & _).
  unfold heightBound in Hsize.
  assert (Hno : ~ (y (Player.position (player s1))
                   - Player.radius (player s1) > canvasHeight s1 + 80))
    by (rewrite Hrad, Hhei in *; lra).
  assert (Hfb : fellBelow s1 = false).
  { destruct (fellBelow s1) eqn:Hf; [|reflexivity].
    exfalso. apply Hno. apply fellBelow_spec. exact Hf. }
  split; [exact Hno|]. split; [exact Hfb|].
  intros Ht.
  pose proof (landing_state dt rnd s target (wf_ctx _ _ _ Hwf) Hog Ht Hl)
    as Hs3.
  cbv zeta in Hs3.
  pose proof (recenterWorld_frame
                (touchDown rnd target
                   (set_player s (integrate dt (player s))))) as Hfr.
  cbv zeta in Hfr.
  destruct Hfr as (_ & Hover & _ & _ & _ & HcH & HyP & _ & HrP & HoG).
  destruct Hs3 as [Hs3|[Hf3 Hs3]].
  - rewrite Hs3, Hover, HoG. split; reflexivity.
  - exfalso. unfold fellBelow in Hf3. rewrite HyP, HrP, HcH in Hf3.
    change (fellBelow s1 = true) in Hf3. congruence.
Qed.

Lemma landing_excludes_fall_witness :
  fellBelow (set_player poised (integrate 0.016 (player poised))) = false /\
  (nth_error (platforms poised) (targetPlatformId poised) = Some (plat 7 8) ->
   Player.onGround (player (state_of (update 0.016 (draws 0.75) poised)))
   = true /\
   gameOver (state_of (update 0.016 (draws 0.75) poised)) = gameOver poised).
Proof.
  refine (proj2 (landing_excludes_fall 100 200 poised 0.016 (draws 0.75)
                   (plat 7 8) _ _ reachable_poised eq_refl _ _
                   poised_lands)).
  - lra.
  - lra.
  - cbn. tauto.
  - cbn. lra.
Defined.

(** Releasing at time 1500 a press begun at time 1000: a 500 ms press
    aimed at a platform on the same level. *)
Lemma late_release og :
  exists s',
    onTouchEnd 1500 (pressing og) = Done s' /\
    Player.onGround (player s') = false /\
    y (Player.velocity (player s')) = - 168.
Proof.
  eexists. split.
  - apply (onTouchEnd_launch _ _ (plat0 30) (plat 1 52)); reflexivity.
  - split; [reflexivity|].
    cbn [set_player player Player.velocity computeLaunch y pressing
         pressStartTime canvasWidth plat0 plat Platform.position
         spec_direction x].
    unfold spec_power, chargeFactor. rewrite Rmin_left by lra. lra.
Qed.

(** C2, as stated, fails: the session below has fallen (it is GameOver),
    and the next frame still moves and accelerates the player. *)
Lemma physics_runs_after_game_over :
  let s' := state_of (update 0.033 (draws 0.75) fallen) in
  reachable 100 200 fallen /\
  phase fallen = GameOver /\
  valid_event (ETick 0.033 (draws 0.75)) /\
  Player.position (player s') <> Player.position (player fallen) /\
  Player.velocity (player s') <> Player.velocity (player fallen).
Proof.
  cbv zeta. split.
  { apply (reachable_trace (draws 0.75) fall_trace).
    - apply valid_draws; lra.
    - unfold fall_trace. apply Forall_app. split.
      + constructor; [apply valid_draws; lra | apply valid_tap].
      + apply Forall_forall. intros e He. apply repeat_spec in He.
        subst e. split; [lra | apply valid_draws; lra].
    - apply fall_trace_exec. }
  split; [reflexivity|].
  split; [split; [lra | apply valid_draws; lra]|].
  unfold fallen. rewrite fall_tick. cbn [state_of falling player].
  split; intros Heq; apply (f_equal y) in Heq; cbn in Heq; lra.
Qed.

Lemma grounded_update dt rnd s :
  Player.onGround (player s) = true -> state_of (update dt rnd s) = s.
Proof.
  intros Hog. unfold update. destruct (ctx s); cbn [negb]; [|reflexivity].
  rewrite state_of_andThen_draw, Hog. reflexivity.
Qed.

(** C2, amended: physics are gated by [onGround], not by the session
    state. A frame leaves the player's position and velocity unchanged
    whenever the player is grounded, which is always the case before the
    session has started; a frame on an airborne player that does not land
    applies the integration step, in GameOver as in Playing. *)
Theorem physics_gated_by_ground W H s dt rnd :
  reachable W H s ->
  let s' := state_of (update dt rnd s) in
  (phase s = Idle \/ Player.onGround (player s) = true ->
   Player.position (player s') = Player.position (player s) /\
   Player.velocity (player s') = Player.velocity (player s)) /\
  (forall target,
      Player.onGround (player s) = false ->
      nth_error (platforms s) (targetPlatformId s) = Some target ->
      checkLanding (set_player s (integrate dt (player s))) target = false ->
      player s' = integrate dt (player s)).
Proof.
  intros Hreach s'. apply reachable_wf in Hreach as Hwf. split.
  - intros Hg.
    assert (Hog : Player.onGround (player s) = true).
    { destruct Hg as [Hidle|Hog]; [|exact Hog].
      apply (wf_idle _ _ _ Hwf). apply phase_idle. exact Hidle. }
    subst s'. rewrite (grounded_update dt rnd s Hog). split; reflexivity.
  - intros target Hog Ht Hl. subst s'. unfold update.
    rewrite (wf_ctx _ _ _ Hwf), Hog. cbn [negb].
    rewrite state_of_andThen_draw.
    cbn [set_player platforms targetPlatformId]. rewrite Ht.
    unfold set_player in Hl |- *. rewrite Hl. cbn [andThen state_of].
    destruct (fellBelow _); reflexivity.
Qed.

Lemma physics_gated_by_ground_witness :
  let s := initCanvas 100 200 (draws 0.25) in
  let s' := state_of (update 0.033 (draws 0.75) s) in
  Player.position (player s') = Player.position (player s) /\
  Player.velocity (player s') = Player.velocity (player s).
Proof.
  refine (proj1 (physics_gated_by_ground 100 200
                   (initCanvas 100 200 (draws 0.25)) 0.033 (draws 0.75)
                   (reach_init 100 200 _ (valid_draws 0.25 _))) _).
  - lra.
  - left. reflexivity.
Defined.


(** After the landing of the trace above has thrown, the page is still
    Playing with the player grounded and the current id past the end of
    the array: a press is accepted, and its release throws at the lookup,
    leaving the player as it was. *)
Lemma release_after_crash_throws :
  let s := onTouchStart 9000 crashed in
  reachable 100 200 s /\
  phase s = Playing /\ isPressing s = true /\
  Player.onGround (player s) = true /\
  faulted (onTouchEnd 9100 s) = true /\
  player (state_of (onTouchEnd 9100 s)) = player s.
Proof.
  split.
  { exact (reach_step 100 200 (ETouchStart 9000) crashed reachable_crashed
             I). }
  repeat split.
Qed.



(** C4, as stated, fails: a press starts at time 1000, the session is
    restarted, the press ends at time 1500; the freshly reset player is
    launched with the power of a 500 ms press. *)
Lemma stale_launch_after_restart :
  let s := state_of (exec straddle_trace (initCanvas 100 200 (draws 0.75))) in
  valid_rand (draws 0.75) /\ Forall valid_event straddle_trace /\
  Player.onGround (player s) = false /\
  y (Player.velocity (player s)) = - 168.
Proof.
  cbv zeta. split; [apply valid_draws; lra|]. split.
  { unfold straddle_trace.
    constructor; [apply valid_draws; lra|]. constructor; [exact I|].
    constructor; [apply valid_draws; lra|].
    constructor; [exact I | constructor]. }
  unfold straddle_trace. cbn [exec step].
  rewrite start_100_200. rewrite Rgtb_true by lra. cbn [andThen].
  unfold onTouchStart, world. cbn [gameStarted gameOver negb orb].
  unfold restartGame. rewrite resetWorld_100_200 by reflexivity.
  rewrite Rgtb_true by lra.
  cbn [set_flags set_press gameStarted gameOver showOverlay ctx
       pressStartTime isPressing].
  fold (pressing true).
  destruct (late_release true) as (s' & Hd & Hog & Hy).
  rewrite Hd. cbn [andThen exec state_of]. split; assumption.
Qed.

(** C4, amended: a restart resets the player (zero velocity, grounded)
    but keeps the press flag and the press start time, so a press that
    straddles the restart is honoured: its release launches the freshly
    reset player with the power of the whole press. *)
Theorem press_survives_restart s rnd now :
  gameStarted s = true -> isPressing s = true ->
  let fresh := restartGame rnd s in
  let released := state_of (onTouchEnd now fresh) in
  Player.velocity (player fresh) = mkVector2 0 0 /\
  Player.onGround (player fresh) = true /\
  isPressing fresh = true /\
  pressStartTime fresh = pressStartTime s /\
  onTouchEnd now fresh = Done released /\
  Player.onGround (player released) = false /\
  exists current target,
    platforms fresh = [current; target] /\
    Player.velocity (player released)
    = computeLaunch (now - pressStartTime s) (Platform.position current)
                    (Platform.position target) (canvasWidth s).
Proof.
  intros Hs Hp fresh released.
  assert (Hlaunch :
    onTouchEnd now fresh =
    Done (set_player (set_press fresh (pressStartTime fresh) false)
            (Player.mk (Player.position (player fresh))
               (computeLaunch (now - pressStartTime fresh)
                  (Platform.position (nth 0 (platforms fresh) (plat0 0)))
                  (Platform.position (nth 1 (platforms fresh) (plat0 0)))
                  (canvasWidth fresh))
               (Player.radius (player fresh)) false))).
  { apply onTouchEnd_launch; try reflexivity; assumption. }
  subst released. rewrite Hlaunch.
  repeat (split; [first [reflexivity | assumption]|]).
  do 2 eexists. split; reflexivity.
Qed.

Lemma press_survives_restart_witness :
  Player.onGround
    (player (state_of (onTouchEnd 1500
                         (restartGame (draws 0.75) (pressing false)))))
  = false.
Proof.
  exact (proj1 (proj2 (proj2 (proj2 (proj2 (proj2
           (press_survives_restart (pressing false) (draws 0.75) 1500
                                   eq_refl eq_refl))))))).
Defined.

(** C9: a tick on an airborne player classifies the integrated body
    against the target exactly as specified. It lands (Grounded) iff the
    centre x is within the platform's width, the bottom point is within
    [[top - 2, bottom + 4]] and the vertical velocity is not upward. A
    body that does not land either ends the session (Fell), when
    [position.y - radius > height + 80], or is only integrated
    (StillAirborne). The miss check is also evaluated after a landing:
    in every frame that returns, the session is over afterwards iff it was
    before or the fall condition holds. *)
Theorem landing_classification s dt rnd target :
  ctx s = true -> Player.onGround (player s) = false ->
  nth_error (platforms s) (targetPlatformId s) = Some target ->
  let p := integrate dt (player s) in
  let c := Platform.position target in
  let sz := Platform.size target in
  let grounded :=
    (x c - x sz / 2 <= x (Player.position p) <= x c + x sz / 2) /\
    (y c - y sz / 2 - 2 <= y (Player.position p) + Player.radius p
                        <= y c + y sz / 2 + 4) /\
    0 <= y (Player.velocity p) in
  let fell :=
    y (Player.position p) - Player.radius p > canvasHeight s + 80 in
  let s' := state_of (update dt rnd s) in
  (Player.onGround (player s') = true <-> grounded) /\
  (~ grounded -> fell -> update dt rnd s = Done (endGame (set_player s p))) /\
  (~ grounded -> ~ fell -> update dt rnd s = Done (set_player s p)) /\
  (faulted (update dt rnd s) = false ->
   (gameOver s' = true <-> gameOver s = true \/ fell)).
Proof.
  intros Hctx Hair Htgt p c sz grounded fell s'.
  assert (Hg : checkLanding (set_player s p) target = true <-> grounded)
    by apply checkLanding_spec.
  assert (Hf : fellBelow (set_player s p) = true <-> fell)
    by apply fellBelow_spec.
  clearbody grounded fell.
  destruct (checkLanding (set_player s p) target) eqn:Hland.
  - (* the landing branch *)
    assert (Hgr : grounded) by (apply Hg; reflexivity).
    pose proof (recenterWorld_frame (touchDown rnd target (set_player s p)))
      as Hfr.
    cbv zeta in Hfr.
    destruct Hfr as (_ & Hover & _ & _ & _ & HH & Hy & _ & Hr & Hog).
    assert (Hup : update dt rnd s =
                  land rnd target (set_player s p)
                  >>= (fun s2 => Done (if fellBelow s2 then endGame s2
                                       else s2))
                  >>= draw)
      by (apply update_lands; assumption).
    unfold land in Hup.
    assert (Hf3 : fellBelow (state_of (recenterWorld
                               (touchDown rnd target (set_player s p))))
                  = fellBelow (set_player s p)).
    { unfold fellBelow. rewrite Hy, Hr, HH. reflexivity. }
    subst s'. rewrite Hup.
    destruct (recenterWorld (touchDown rnd target (set_player s p)))
      as [s3|s3]; cbn [andThen state_of faulted] in *.
    + rewrite draw_state. rewrite Hf3 in *.
      destruct (fellBelow (set_player s p));
        cbn [endGame set_flags player gameOver]; rewrite ?Hog, ?Hover;
        cbn [touchDown set_score set_platforms set_ids set_player player
             gameOver Player.onGround];
        intuition congruence.
    + rewrite Hog.
      cbn [touchDown set_score set_platforms set_ids set_player player
           Player.onGround].
      intuition congruence.
  - (* no landing *)
    assert (Hup : update dt rnd s =
                  Done (if fellBelow (set_player s p)
                        then endGame (set_player s p) else set_player s p))
      by (apply update_misses with (target := target); assumption).
    assert (Hog : Player.onGround p = false) by exact Hair.
    subst s'. rewrite Hup. cbn [state_of faulted].
    destruct (fellBelow (set_player s p));
      cbn [endGame set_flags set_player player gameOver]; rewrite Hog;
      intuition congruence.
Qed.

Lemma landing_classification_witness :
  update 0.033 (draws 0.75) (falling false 129 0)
  = Done (set_player (falling false 129 0)
                     (integrate 0.033 (player (falling false 129 0)))).
Proof.
  refine (proj1 (proj2 (proj2
            (landing_classification (falling false 129 0) 0.033 (draws 0.75)
                                    (plat 1 52) eq_refl eq_refl eq_refl)))
            _ _).
  - cbn. lra.
  - cbn. unfold gravity. lra.
Defined.

(** * Further properties of the code *)

(** ** Utilities *)

Lemma randInt_integer (a b : Z) u :
  valid_draw u -> (a <= b)%Z ->
  exists k : Z, randInt u (IZR a) (IZR b) = IZR k /\ (a <= k <= b)%Z.
Proof.
  intros Hu Hab. pose proof (randInt_range a b u Hu Hab) as Hr.
  exists (Zfloor (u * (IZR b - IZR a + 1)) + a)%Z.
  assert (He : randInt u (IZR a) (IZR b)
               = IZR (Zfloor (u * (IZR b - IZR a + 1)) + a))
    by (unfold randInt, floor; rewrite plus_IZR; reflexivity).
  split; [exact He|]. rewrite He in Hr.
  split; apply le_IZR; lra.
Qed.

(** X1: between integer bounds [min <= max], [randInt] returns an integer
    of the closed range, and the bound itself when they coincide. *)
Theorem randInt_in_range (a b : Z) u :
  valid_draw u -> (a <= b)%Z ->
  (exists k : Z, randInt u (IZR a) (IZR b) = IZR k /\ (a <= k <= b)%Z) /\
  (a = b -> randInt u (IZR a) (IZR b) = IZR a).
Proof.
  intros Hu Hab. split; [apply randInt_integer; assumption|].
  intros ->. destruct (randInt_integer b b u Hu Hab) as (k & -> & Hk).
  f_equal. lia.
Qed.

Lemma randInt_in_range_witness :
  exists k : Z, randInt 0.95 16 28 = IZR k /\ (16 <= k <= 28)%Z.
Proof.
  refine (proj1 (randInt_in_range 16 28 0.95 _ _)).
  - unfold valid_draw. lra.
  - lia.
Defined.

(** X2: [clamp] returns a value of [[lo, hi]] when [lo <= hi], the value
    itself when it is already inside, and is idempotent; with the bounds
    the wrong way round it returns [lo]. *)
Theorem clamp_contract v lo hi :
  (lo <= hi ->
   lo <= clamp v lo hi <= hi /\
   (lo <= v <= hi -> clamp v lo hi = v) /\
   clamp (clamp v lo hi) lo hi = clamp v lo hi) /\
  (hi < lo -> clamp v lo hi = lo).
Proof.
  split.
  - intros Hlh. split; [apply clamp_range; exact Hlh|].
    split; [apply clamp_inside|].
    apply clamp_inside, clamp_range, Hlh.
  - intros Hhl. unfold clamp, Rmax, Rmin.
    repeat (destruct Rle_dec; try lra).
Qed.

Lemma clamp_contract_witness : 18 <= clamp 8 18 82 <= 82.
Proof.
  refine (proj1 (proj1 (clamp_contract 8 18 82) _)). lra.
Defined.

(** ** The platform generator *)

Lemma round_IZR v : round v = IZR (Zfloor (v + 1 / 2)).
Proof. reflexivity. Qed.

Lemma palette_at_In (k : Z) : (0 <= k <= 3)%Z -> In (palette_at (IZR k)) palette.
Proof.
  intros Hk. unfold palette_at.
  rewrite Rleb_true by (apply (IZR_le 0); lia).
  rewrite ZfloorZ.
  assert (Hc : k = 0%Z \/ k = 1%Z \/ k = 2%Z \/ k = 3%Z) by lia.
  destruct Hc as [->|[->|[->| ->]]]; cbn; auto.
Qed.

Lemma generate_y_band W H rnd prev :
  0 <= H ->
  round (H * 0.35)
  <= y (Platform.position (generateNextPlatform W H rnd prev))
  <= round (H * 0.8).
Proof. intros HH. apply clamp_range, round_le. lra. Qed.

(** X3: on a window of non-negative size every generated platform has its
    centre within half a unit of the horizontal band
    [[0.18 W, 0.82 W]] and of the vertical band [[0.35 H, 0.8 H]], a
    width within half a unit of [[0.16 W, 0.28 W]], a height of at least
    12 and a colour of the palette. *)
Theorem generated_platform_in_bands W H rnd prev :
  0 <= W -> 0 <= H -> valid_rand rnd ->
  let p := generateNextPlatform W H rnd prev in
  W * 0.18 - 1 / 2 <= x (Platform.position p) <= W * 0.82 + 1 / 2 /\
  H * 0.35 - 1 / 2 <= y (Platform.position p) <= H * 0.8 + 1 / 2 /\
  W * 0.16 - 1 / 2 <= x (Platform.size p) <= W * 0.28 + 1 / 2 /\
  12 <= y (Platform.size p) /\
  In (Platform.color p) palette.
Proof.
  intros HW HH (_ & _ & Hw & _ & Hc) p. subst p.
  unfold generateNextPlatform.
  cbn [Platform.position Platform.size Platform.color x y].
  pose proof (round_bound (W * 0.18)) as B18.
  pose proof (round_bound (W * 0.82)) as B82.
  pose proof (round_bound (H * 0.35)) as B35.
  pose proof (round_bound (H * 0.8)) as B80.
  pose proof (round_bound (W * 0.16)) as B16.
  pose proof (round_bound (W * 0.28)) as B28.
  split.
  { pose proof (clamp_range (x (Platform.position prev) + signedDx W rnd)
                  (round (W * 0.18)) (round (W * 0.82))
                  ltac:(apply round_le; lra)).
    lra. }
  split.
  { pose proof (generate_y_band W H rnd prev HH) as Hy.
    unfold generateNextPlatform in Hy. cbn [Platform.position y] in Hy.
    lra. }
  split.
  { assert (Hr : round (W * 0.16)
                 <= randInt (r_width rnd) (round (W * 0.16))
                            (round (W * 0.28))
                 <= round (W * 0.28)).
    { rewrite (round_IZR (W * 0.16)), (round_IZR (W * 0.28)).
      apply randInt_range; [exact Hw|]. apply Zfloor_le. lra. }
    lra. }
  split; [apply Rmax_l|].
  destruct (randInt_integer 0 3 (r_color rnd) Hc ltac:(lia)) as (k & Hk & Hr).
  rewrite Hk. apply palette_at_In, Hr.
Qed.

Lemma generated_platform_in_bands_witness :
  let p := generateNextPlatform 100 200 (draws 0.25) (plat0 30) in
  200 * 0.35 - 1 / 2 <= y (Platform.position p) <= 200 * 0.8 + 1 / 2.
Proof.
  refine (proj1 (proj2 (generated_platform_in_bands 100 200 (draws 0.25)
                          (plat0 30) _ _ (valid_draws 0.25 _)))); lra.
Defined.

(** X4: from a previous platform inside the vertical band the new centre
    is at most [yVariance = round(0.06 H)] higher or lower. *)
Theorem generator_vertical_drift W H rnd prev :
  0 <= H -> valid_rand rnd ->
  round (H * 0.35) <= y (Platform.position prev) <= round (H * 0.8) ->
  let p := generateNextPlatform W H rnd prev in
  Rabs (y (Platform.position p) - y (Platform.position prev))
  <= round (H * 0.06).
Proof.
  intros HH (_ & _ & _ & Hy & _) Hprev p. subst p.
  unfold generateNextPlatform. cbn [Platform.position y].
  assert (Hv : 0 <= round (H * 0.06)) by (apply round_nonneg; lra).
  assert (Hd : - round (H * 0.06)
               <= randInt (r_y rnd) (- round (H * 0.06)) (round (H * 0.06))
               <= round (H * 0.06)).
  { rewrite (round_IZR (H * 0.06)) in *. rewrite <- opp_IZR.
    apply randInt_range; [exact Hy|].
    apply (le_IZR 0) in Hv. lia. }
  revert Hd Hprev.
  generalize (randInt (r_y rnd) (- round (H * 0.06)) (round (H * 0.06))).
  intros d Hd Hprev. unfold clamp, Rmax, Rmin, Rabs.
  repeat (destruct Rle_dec; try lra); repeat (destruct Rcase_abs; try lra).
Qed.

Lemma generator_vertical_drift_witness :
  let p := generateNextPlatform 100 200 (draws 0.25) (plat0 30) in
  Rabs (y (Platform.position p) - 140) <= round (200 * 0.06).
Proof.
  refine (generator_vertical_drift 100 200 (draws 0.25) (plat0 30)
            _ (valid_draws 0.25 _) _); try lra.
  rewrite (round_eq 70 (200 * 0.35)), (round_eq 160 (200 * 0.8)) by lra.
  cbn. lra.
Defined.

(** ** The world window *)

Lemma Rleb_ext a b a' b' : (a <= b <-> a' <= b') -> Rleb a b = Rleb a' b'.
Proof.
  intros Hiff. unfold Rleb.
  destruct (Rle_dec a b), (Rle_dec a' b'); tauto.
Qed.

Lemma Rgtb_ext a b a' b' : (b < a <-> b' < a') -> Rgtb a b = Rgtb a' b'.
Proof.
  intros Hiff. unfold Rgtb.
  destruct (Rlt_dec b a), (Rlt_dec b' a'); tauto.
Qed.

(** X5: the translation of [recenterWorld] changes neither the landing
    check against a platform translated with the world nor the miss check:
    recentering never changes where the player is relative to the
    platforms. *)
Theorem shift_preserves_checks dx s p :
  checkLanding (shiftWorld dx s) (shiftPlatform dx p) = checkLanding s p /\
  fellBelow (shiftWorld dx s) = fellBelow s /\
  x (Player.position (player (shiftWorld dx s)))
  - x (Platform.position (shiftPlatform dx p))
  = x (Player.position (player s)) - x (Platform.position p).
Proof.
  split; [|split].
  - unfold checkLanding, Rgeb.
    cbn [shiftWorld shiftPlatform shiftPlayer set_player set_platforms player
         Player.position Player.velocity Player.radius Platform.position
         Platform.size x y].
    f_equal; f_equal; apply Rleb_ext; lra.
  - reflexivity.
  - cbn. ring.
Qed.

Lemma slice_last_map {A B} (f : A -> B) n l :
  slice_last n (map f l) = map f (slice_last n l).
Proof. unfold slice_last. rewrite length_map. apply skipn_map. Qed.

Lemma slice_last_nonempty {A} (l : list A) :
  (8 < List.length l)%nat -> slice_last 6 l <> [].
Proof.
  intros Hl He. apply (f_equal (@List.length A)) in He.
  rewrite slice_last_6_length in He by exact Hl. discriminate He.
Qed.

(** What [recenterWorld] returns, case by case. *)
Lemma recenterWorld_cases s :
  (nth_error (platforms s) (currentPlatformId s) = None /\
   recenterWorld s = Fault s) \/
  exists c,
    nth_error (platforms s) (currentPlatformId s) = Some c /\
    let dx := round (canvasWidth s * 0.3) - x (Platform.position c) in
    (dx = 0 /\ recenterWorld s = Done s) \/
    (dx <> 0 /\ (List.length (platforms s) <= 8)%nat /\
     recenterWorld s = Done (shiftWorld dx s)) \/
    (dx <> 0 /\ (8 < List.length (platforms s))%nat /\
     exists first rest,
       map (shiftPlatform dx) (slice_last 6 (platforms s)) = first :: rest /\
       recenterWorld s =
       Done (set_ids (set_platforms (shiftWorld dx s) (first :: rest))
                     (Platform.id first) (S (Platform.id first)))).
Proof.
  unfold recenterWorld.
  destruct (nth_error (platforms s) (currentPlatformId s)) as [c|] eqn:Hc;
    [right; exists c; split; [reflexivity|] | left; auto].
  cbv zeta. destruct (Req_dec_T _ _) as [Hz|Hnz]; [left; auto|].
  right.
  cbn [shiftWorld set_platforms set_player platforms].
  rewrite length_map.
  destruct (8 <? List.length (platforms s))%nat eqn:H8.
  - apply Nat.ltb_lt in H8. right. split; [exact Hnz|]. split; [exact H8|].
    rewrite slice_last_map.
    destruct (map _ (slice_last 6 (platforms s))) as [|first rest] eqn:Hs.
    + exfalso. apply map_eq_nil in Hs.
      exact (slice_last_nonempty _ H8 Hs).
    + exists first, rest. split; reflexivity.
  - apply Nat.ltb_ge in H8. left. auto.
Qed.

(** X6: when [recenterWorld] changes the number of platforms it has kept
    exactly the six newest, in creation order and only translated, and
    renumbered the current id to the oldest of them. *)
Theorem eviction_keeps_newest_six s s' :
  recenterWorld s = Done s' ->
  List.length (platforms s') <> List.length (platforms s) ->
  (exists dx,
     platforms s' = map (shiftPlatform dx) (slice_last 6 (platforms s)) /\
     player s' = shiftPlayer dx (player s)) /\
  ids s' = slice_last 6 (ids s) /\
  nth_error (ids s') 0 = Some (currentPlatformId s') /\
  score s' = score s.
Proof.
  intros Hrc Hlen.
  destruct (recenterWorld_cases s) as [[_ Hf]|(c & Hc & Hcase)];
    [congruence|].
  cbv zeta in Hcase.
  destruct Hcase as [[_ Hd]|[(_ & _ & Hd)|(_ & H8 & first & rest & Hs & Hd)]];
    rewrite Hd in Hrc; injection Hrc as <-.
  - exfalso. apply Hlen. reflexivity.
  - exfalso. apply Hlen. cbn. apply length_map.
  - cbn [set_ids set_platforms shiftWorld set_player platforms player score
         currentPlatformId].
    split; [eexists; split; [symmetry; exact Hs | reflexivity]|].
    unfold ids. cbn [platforms set_ids set_platforms].
    rewrite <- Hs, ids_shift. unfold slice_last.
    rewrite skipn_map, length_map. split; [reflexivity|].
    rewrite <- (ids_shift (round (canvasWidth s * 0.3)
                           - x (Platform.position c))).
    fold (slice_last 6 (platforms s)). rewrite Hs. split; reflexivity.
Qed.

Lemma recenter_poised :
  recenterWorld (touchDown (draws 0.75) (plat 7 8)
                   (set_player poised (integrate 0.016 (player poised))))
  = Done evicted.
Proof.
  pose proof eviction_update as Hup.
  rewrite (update_lands _ _ _ (plat 7 8)) in Hup;
    [ | reflexivity | reflexivity | reflexivity | apply poised_lands ].
  unfold land in Hup.
  destruct (recenterWorld _) as [s3|s3] eqn:Hrc; [|discriminate Hup].
  cbn [andThen] in Hup.
  assert (Hf : fellBelow s3 = false).
  { pose proof (recenterWorld_frame
                  (touchDown (draws 0.75) (plat 7 8)
                     (set_player poised (integrate 0.016 (player poised)))))
      as Hfr.
    cbv zeta in Hfr. rewrite Hrc in Hfr. cbn [state_of] in Hfr.
    destruct Hfr as (_ & _ & _ & _ & _ & HH & Hy & _ & Hr & _).
    unfold fellBelow. rewrite Hy, Hr, HH.
    cbn. unfold gravity. apply Rgtb_false. lra. }
  rewrite Hf in Hup. apply draw_done in Hup. congruence.
Qed.

Lemma eviction_keeps_newest_six_witness :
  ids evicted
  = slice_last 6
      (ids (touchDown (draws 0.75) (plat 7 8)
              (set_player poised (integrate 0.016 (player poised))))).
Proof.
  refine (proj1 (proj2 (eviction_keeps_newest_six _ evicted recenter_poised
                          _))).
  cbn. discriminate.
Defined.

(** X7: when [recenterWorld] returns without trimming, the platform at
    index [currentPlatformId] sits at the desired screen position
    [round(0.3 W)]. *)
Theorem recenter_anchors_current s s' :
  recenterWorld s = Done s' ->
  List.length (platforms s') = List.length (platforms s) ->
  anchored s'.
Proof.
  intros Hrc Hlen.
  destruct (recenterWorld_cases s) as [[_ Hf]|(c & Hc & Hcase)];
    [congruence|].
  cbv zeta in Hcase.
  destruct Hcase as [[Hz Hd]|[(_ & _ & Hd)|(_ & H8 & first & rest & Hs & Hd)]];
    rewrite Hd in Hrc; injection Hrc as <-.
  - exists c. split; [exact Hc | lra].
  - exists (shiftPlatform (round (canvasWidth s * 0.3)
                           - x (Platform.position c)) c).
    split; [apply map_nth_error, Hc | cbn; ring].
  - exfalso. cbn [set_ids set_platforms platforms] in Hlen.
    apply (f_equal (@List.length Platform.t)) in Hs.
    rewrite length_map, slice_last_6_length in Hs by exact H8.
    rewrite <- Hs in Hlen. lia.
Qed.

Lemma recenter_crowded : recenterWorld crowded = Done crowded.
Proof.
  unfold recenterWorld, crowded, world.
  cbn [platforms currentPlatformId canvasWidth nth_error plat
       Platform.position x].
  rewrite round_30. destruct (Req_dec_T _ _) as [_|Hn]; [reflexivity|].
  exfalso. apply Hn. lra.
Qed.

Lemma recenter_anchors_current_witness : anchored crowded.
Proof.
  exact (recenter_anchors_current crowded crowded recenter_crowded eq_refl).
Defined.

(** X8: [recenterWorld] throws exactly when the current id is not an
    index of the array; the trim itself never does. *)
Theorem recenterWorld_faults_iff s :
  faulted (recenterWorld s) = true <->
  nth_error (platforms s) (currentPlatformId s) = None.
Proof.
  destruct (recenterWorld_cases s) as [[Hn Hf]|(c & Hc & Hcase)].
  - rewrite Hf. cbn. tauto.
  - cbv zeta in Hcase.
    destruct Hcase
      as [[_ Hd]|[(_ & _ & Hd)|(_ & _ & first & rest & _ & Hd)]];
      rewrite Hd, Hc; cbn; split; intros Hx; discriminate Hx.
Qed.

(** X9: whenever [recenterWorld] has to move the world (the current
    platform is off the desired position), at most 8 platforms remain
    afterwards. *)
Theorem moved_world_is_bounded s c :
  nth_error (platforms s) (currentPlatformId s) = Some c ->
  x (Platform.position c) <> round (canvasWidth s * 0.3) ->
  (List.length (platforms (state_of (recenterWorld s))) <= 8)%nat.
Proof.
  intros Hc Hx.
  destruct (recenterWorld_cases s) as [[Hn _]|(c' & Hc' & Hcase)];
    [congruence|].
  assert (c' = c) by congruence. subst c'. cbv zeta in Hcase.
  destruct Hcase
    as [[Hz _]|[(_ & H8 & Hd)|(_ & H8 & first & rest & Hs & Hd)]].
  - exfalso. apply Hx. lra.
  - rewrite Hd. cbn. rewrite length_map. exact H8.
  - rewrite Hd. cbn [state_of set_ids set_platforms platforms].
    rewrite <- Hs, length_map, slice_last_6_length by exact H8. lia.
Qed.

Lemma moved_world_is_bounded_witness :
  (List.length (platforms evicted) <= 8)%nat.
Proof.
  pose proof (moved_world_is_bounded
                (touchDown (draws 0.75) (plat 7 8)
                   (set_player poised (integrate 0.016 (player poised))))
                (plat 7 8) eq_refl) as Hw.
  rewrite recenter_poised in Hw. apply Hw.
  cbn [touchDown set_score set_platforms set_ids set_player canvasWidth
       poised crowded world set_press plat Platform.position x].
  rewrite round_30. lra.
Defined.

(** ** The session state machine *)

(** X10: [startGame] is guarded by the [gameStarted] flag: a second call
    changes nothing, whatever its random draws. *)
Theorem start_twice_is_noop rnd1 rnd2 s :
  startGame rnd2 (startGame rnd1 s) = startGame rnd1 s.
Proof.
  unfold startGame at 2 3. destruct (gameStarted s) eqn:Hs.
  - unfold startGame. rewrite Hs. reflexivity.
  - reflexivity.
Qed.

(** X11: restarting from any reachable page rebuilds exactly the world of
    the initial start with the same draws (player, platforms, ids, score),
    clears the game-over flag and keeps the press state; a started session
    is Playing again. *)
Theorem restart_rebuilds_world W H s rnd :
  reachable W H s ->
  let s' := restartGame rnd s in
  let fresh := initCanvas W H rnd in
  player s' = player fresh /\ platforms s' = platforms fresh /\
  currentPlatformId s' = 0%nat /\ targetPlatformId s' = 1%nat /\
  score s' = 0%nat /\ gameOver s' = false /\
  isPressing s' = isPressing s /\ pressStartTime s' = pressStartTime s /\
  (gameStarted s = true -> phase s' = Playing).
Proof.
  intros Hreach s' fresh. apply reachable_wf in Hreach as Hwf.
  subst s' fresh. unfold restartGame, initCanvas, resetWorld.
  cbn [set_flags canvasWidth canvasHeight player platforms
       currentPlatformId targetPlatformId score gameOver gameStarted
       isPressing pressStartTime].
  rewrite (wf_width _ _ _ Hwf), (wf_height _ _ _ Hwf).
  repeat (split; [reflexivity|]).
  intros Hs. unfold phase. cbn [gameStarted gameOver]. rewrite Hs.
  reflexivity.
Qed.

Lemma restart_rebuilds_world_witness :
  platforms (restartGame (draws 0.25) evicted)
  = platforms (initCanvas 100 200 (draws 0.25)).
Proof.
  exact (proj1 (proj2 (restart_rebuilds_world 100 200 evicted (draws 0.25)
                         reachable_evicted))).
Defined.

(** What a frame does to the flags and the press state. *)
Lemma update_flags dt rnd s :
  let s' := state_of (update dt rnd s) in
  isPressing s' = isPressing s /\ pressStartTime s' = pressStartTime s /\
  ((gameStarted s' = gameStarted s /\ gameOver s' = gameOver s) \/
   (gameStarted s' = true /\ gameOver s' = true /\
    Player.onGround (player s) = false)).
Proof.
  cbv zeta.
  destruct (update_state dt rnd s)
    as [->|(Hog & [->| [->| (g & _ & _ & Hs)]])].
  1-2: cbn; tauto.
  1: cbn; tauto.
  cbv zeta in Hs.
  pose proof (recenterWorld_frame
                (touchDown rnd g (set_player s (integrate dt (player s)))))
    as Hfr.
  cbv zeta in Hfr.
  destruct Hfr as (Hst & Hov & _ & Hp & _).
  assert (Hpt : pressStartTime
                  (state_of (recenterWorld
                     (touchDown rnd g
                        (set_player s (integrate dt (player s))))))
                = pressStartTime s).
  { destruct (recenterWorld_cases
                (touchDown rnd g (set_player s (integrate dt (player s)))))
      as [[_ Hf]|(c & _ & Hcase)]; [rewrite Hf; reflexivity|].
    cbv zeta in Hcase.
    destruct Hcase
      as [[_ Hd]|[(_ & _ & Hd)|(_ & _ & first & rest & _ & Hd)]];
      rewrite Hd; reflexivity. }
  destruct Hs as [->| ->]; cbn [endGame set_flags isPressing pressStartTime
                                gameStarted gameOver];
    rewrite ?Hst, ?Hov, ?Hp, ?Hpt; cbn; tauto.
Qed.

(** X12: GameOver is left only by a restart, which makes the session
    Playing; a Playing session stays Playing under start, restart and
    touches, and a frame can only keep it Playing or, with the player in
    the air, end it. *)
Theorem phase_transitions s e :
  let s' := state_of (step e s) in
  (phase s = GameOver ->
   match e with
   | ERestart _ => phase s' = Playing
   | _ => phase s' = GameOver
   end) /\
  (phase s = Playing ->
   match e with
   | ETick _ _ =>
       phase s' = Playing \/
       (phase s' = GameOver /\ Player.onGround (player s) = false)
   | _ => phase s' = Playing
   end).
Proof.
  cbv zeta. split; intros Hph.
  - apply phase_over in Hph as [Hs Ho].
    destruct e as [rnd|rnd|now|now|dt rnd]; cbn [step state_of].
    + unfold startGame. rewrite Hs. apply phase_over. auto.
    + unfold phase, restartGame. cbn. rewrite Hs. reflexivity.
    + unfold onTouchStart. rewrite Hs, Ho. apply phase_over. auto.
    + rewrite onTouchEnd_ignored.
      * apply phase_over. auto.
      * left. intros Hp. apply phase_playing in Hp. destruct Hp. congruence.
    + pose proof (update_flags dt rnd s) as (_ & _ & Hfl). cbv zeta in Hfl.
      apply phase_over. destruct Hfl as [[-> ->]|(-> & -> & _)]; auto.
  - apply phase_playing in Hph as [Hs Ho].
    destruct e as [rnd|rnd|now|now|dt rnd]; cbn [step state_of].
    + unfold startGame. rewrite Hs. apply phase_playing. auto.
    + unfold phase, restartGame. cbn. rewrite Hs. reflexivity.
    + unfold onTouchStart. rewrite Hs, Ho. cbn [negb orb].
      apply phase_playing. auto.
    + destruct (onTouchEnd_state now s) as [->|(_ & [->|(v & ->)])];
        apply phase_playing; auto.
    + pose proof (update_flags dt rnd s) as (_ & _ & Hfl). cbv zeta in Hfl.
      destruct Hfl as [[Hs' Ho']|(Hs' & Ho' & Hog)].
      * left. apply phase_playing. split; congruence.
      * right. split; [apply phase_over; auto | exact Hog].
Qed.

Lemma phase_transitions_witness :
  phase (state_of (step (ETouchStart 2000) fallen)) = GameOver.
Proof.
  exact (proj1 (phase_transitions fallen (ETouchStart 2000)) eq_refl).
Defined.

Lemma idle_not_pressing W H s :
  reachable W H s -> gameStarted s = false -> isPressing s = false.
Proof.
  induction 1 as [rnd Hrnd | e s Hs IH He]; [reflexivity|].
  destruct e as [rnd|rnd|now|now|dt rnd]; cbn [step state_of].
  - unfold startGame.
    destruct (gameStarted s) eqn:Hg; [intros Hx; congruence | discriminate].
  - exact IH.
  - unfold onTouchStart.
    destruct (gameStarted s) eqn:Hg; cbn [negb orb]; [|intros _; auto].
    destruct (gameOver s); intros Hx; cbn in Hx; congruence.
  - destruct (onTouchEnd_state now s) as [->|(Hst & [->|(v & ->)])];
      [exact IH | cbn; congruence | cbn; congruence].
  - pose proof (update_flags dt rnd s) as (Hp & _ & Hfl). cbv zeta in Hfl, Hp.
    rewrite Hp. destruct Hfl as [[-> _]|(-> & _)]; [exact IH | discriminate].
Qed.

(** X13: before the session has started only [startGame] has an effect on
    the state machine: touches and frames return the page unchanged, a
    restart rebuilds the world but leaves the session not started, and
    [startGame] makes it Playing. *)
Theorem idle_waits_for_start W H s e :
  reachable W H s -> phase s = Idle ->
  match e with
  | EStart rnd => phase (startGame rnd s) = Playing
  | ERestart rnd => phase (restartGame rnd s) = Idle
  | _ => step e s = Done s
  end.
Proof.
  intros Hreach Hph. apply phase_idle in Hph as Hs.
  pose proof (idle_not_pressing W H s Hreach Hs) as Hp.
  pose proof (wf_idle _ _ _ (reachable_wf W H s Hreach) Hs) as Hog.
  destruct e as [rnd|rnd|now|now|dt rnd]; cbn [step].
  - unfold startGame. rewrite Hs. reflexivity.
  - unfold phase, restartGame. cbn. rewrite Hs. reflexivity.
  - unfold onTouchStart. rewrite Hs. reflexivity.
  - apply onTouchEnd_ignored. left. rewrite Hph. discriminate.
  - unfold update. destruct (ctx s); cbn [negb]; [|reflexivity].
    rewrite Hog. cbn [negb andThen]. apply draw_idle, Hp.
Qed.

Lemma idle_waits_for_start_witness :
  step (ETick 0.033 (draws 0.75)) (initCanvas 100 200 (draws 0.25))
  = Done (initCanvas 100 200 (draws 0.25)).
Proof.
  exact (idle_waits_for_start 100 200 (initCanvas 100 200 (draws 0.25))
           (ETick 0.033 (draws 0.75))
           (reach_init 100 200 _ (valid_draws 0.25 ltac:(lra))) eq_refl).
Defined.

(** ** The score *)

Lemma recenterWorld_score s :
  score (state_of (recenterWorld s)) = score s.
Proof.
  destruct (recenterWorld_cases s) as [[_ Hf]|(c & _ & Hcase)];
    [rewrite Hf; reflexivity|].
  cbv zeta in Hcase.
  destruct Hcase as [[_ Hd]|[(_ & _ & Hd)|(_ & _ & first & rest & _ & Hd)]];
    rewrite Hd; reflexivity.
Qed.

(** X14: the score is reset to 0 by a restart and by an effective start,
    is left alone by the touch handlers, and a frame either keeps it or,
    grounding an airborne player, adds exactly one: it never decreases
    within a session. *)
Theorem score_steps s e :
  let s' := state_of (step e s) in
  match e with
  | EStart _ => if gameStarted s then s' = s else score s' = 0%nat
  | ERestart _ => score s' = 0%nat
  | ETouchStart _ | ETouchEnd _ => score s' = score s
  | ETick _ _ =>
      score s' = score s \/
      (score s' = S (score s) /\ Player.onGround (player s) = false /\
       Player.onGround (player s') = true)
  end.
Proof.
  cbv zeta. destruct e as [rnd|rnd|now|now|dt rnd]; cbn [step state_of].
  - unfold startGame. destruct (gameStarted s); reflexivity.
  - reflexivity.
  - unfold onTouchStart. destruct (negb (gameStarted s) || gameOver s);
      reflexivity.
  - destruct (onTouchEnd_state now s) as [->|(_ & [->|(v & ->)])];
      reflexivity.
  - destruct (update_state dt rnd s)
      as [->|(Hog & [->| [->| (g & _ & _ & Hs)]])]; auto.
    cbv zeta in Hs. right.
    pose proof (recenterWorld_score
                  (touchDown rnd g (set_player s (integrate dt (player s)))))
      as Hsc.
    pose proof (recenterWorld_frame
                  (touchDown rnd g (set_player s (integrate dt (player s)))))
      as Hfr.
    cbv zeta in Hfr.
    destruct Hfr as (_ & _ & _ & _ & _ & _ & _ & _ & _ & Hg).
    destruct Hs as [->| ->];
      cbn [endGame set_flags score player]; rewrite Hsc, Hg;
      repeat split; auto.
Qed.

(** X15: a frame that passes the landing check adds exactly one to the
    score, grounds the player with zero velocity and leaves its height
    and radius as the integration step produced them (the body is not
    snapped onto the platform). *)
Theorem landing_effects s dt rnd target :
  ctx s = true -> Player.onGround (player s) = false ->
  nth_error (platforms s) (targetPlatformId s) = Some target ->
  checkLanding (set_player s (integrate dt (player s))) target = true ->
  let s' := state_of (update dt rnd s) in
  score s' = S (score s) /\
  Player.onGround (player s') = true /\
  Player.velocity (player s') = mkVector2 0 0 /\
  y (Player.position (player s'))
  = y (Player.position (integrate dt (player s))) /\
  Player.radius (player s') = Player.radius (player s).
Proof.
  intros Hc Hog Ht Hl. cbv zeta.
  pose proof (landing_state dt rnd s target Hc Hog Ht Hl) as Hs3.
  cbv zeta in Hs3.
  pose proof (recenterWorld_score
                (touchDown rnd target
                   (set_player s (integrate dt (player s))))) as Hsc.
  pose proof (recenterWorld_frame
                (touchDown rnd target
                   (set_player s (integrate dt (player s))))) as Hfr.
  cbv zeta in Hfr.
  destruct Hfr as (_ & _ & _ & _ & _ & _ & Hy & Hv & Hr & Hg).
  destruct Hs3 as [->|[_ ->]];
    cbn [endGame set_flags score player]; rewrite Hsc, Hy, Hv, Hr, Hg;
    repeat split.
Qed.

Lemma landing_effects_witness : score evicted = S (score poised).
Proof.
  pose proof (landing_effects poised 0.016 (draws 0.75) (plat 7 8)
                eq_refl eq_refl eq_refl poised_lands) as Hw.
  cbv zeta in Hw. rewrite eviction_update in Hw. exact (proj1 Hw).
Defined.

(** ** Sessions before the first trim *)

Lemma trimmed_not_untrimmed s : trimmed s -> ~ untrimmed s.
Proof.
  intros (k & Hk & Hids & _) (Hu & _). rewrite Hu in Hids.
  assert (Hlen : List.length (platforms s) = 6%nat).
  { apply (f_equal (@List.length nat)) in Hids.
    rewrite !length_seq in Hids. exact Hids. }
  rewrite Hlen in Hids. cbn in Hids. injection Hids as Hz. lia.
Qed.

Lemma recenterWorld_untrimmed s :
  untrimmed s ->
  exists s',
    recenterWorld s = Done s' /\ score s' = score s /\
    ((untrimmed s' /\ currentPlatformId s' = currentPlatformId s /\
      anchored s') \/
     (trimmed s' /\ (8 < List.length (platforms s))%nat /\
      currentPlatformId s' = (List.length (platforms s) - 6)%nat)).
Proof.
  intros Hu. pose proof Hu as (Hids & Hlen & Htgt).
  destruct (recenterWorld_cases s) as [[Hn _]|(c & Hc & Hcase)].
  { apply nth_error_None in Hn. lia. }
  cbv zeta in Hcase.
  destruct Hcase as [[Hz Hd]|[(_ & H8 & Hd)|(_ & H8 & first & rest & Hs & Hd)]];
    rewrite Hd; eexists; (split; [reflexivity|]); (split; [reflexivity|]).
  - left. split; [exact Hu|]. split; [reflexivity|].
    exists c. split; [exact Hc | lra].
  - left. split; [|split; [reflexivity|]].
    + unfold untrimmed, ids. cbn. rewrite ids_shift, length_map. exact Hu.
    + eexists. split; [cbn; apply map_nth_error, Hc | cbn; ring].
  - right. split; [|split; [exact H8 | ]].
    + exists (List.length (platforms s) - 6)%nat.
      assert (Hsl : map Platform.id (first :: rest)
                    = seq (List.length (platforms s) - 6) 6).
      { rewrite <- Hs, ids_shift. unfold slice_last. rewrite <- skipn_map.
        fold (ids s). rewrite Hids, skipn_seq. f_equal; lia. }
      cbn [map seq] in Hsl. injection Hsl as Hfirst Hrest.
      split; [lia|]. split; [|split].
      * unfold ids. cbn. rewrite Hfirst, Hrest. reflexivity.
      * cbn. exact Hfirst.
      * cbn. rewrite Hfirst. reflexivity.
    + assert (Hsl : map Platform.id (first :: rest)
                    = seq (List.length (platforms s) - 6) 6).
      { rewrite <- Hs, ids_shift. unfold slice_last. rewrite <- skipn_map.
        fold (ids s). rewrite Hids, skipn_seq. f_equal; lia. }
      cbn [map seq] in Hsl. injection Hsl as Hfirst _. exact Hfirst.
Qed.

Lemma trimmed_draw s :
  trimmed s -> (currentPlatformId s <= 4)%nat -> draw s = Done s.
Proof.
  intros (k & _ & Hids & Hc & Ht) Hk. unfold draw.
  destruct (isPressing s && Player.onGround (player s)); [|reflexivity].
  assert (Hlen : List.length (platforms s) = 6%nat).
  { unfold ids in Hids. apply (f_equal (@List.length nat)) in Hids.
    rewrite length_map, length_seq in Hids. exact Hids. }
  destruct (lookup_some (platforms s) (currentPlatformId s)) as [c Hcc];
    [lia|].
  destruct (lookup_some (platforms s) (targetPlatformId s)) as [g Hg];
    [lia|].
  rewrite Hcc, Hg. reflexivity.
Qed.

(** A frame on an untrimmed page: it leaves the world alone, or lands and
    stays untrimmed, or lands and trims. *)
Lemma update_untrimmed dt rnd s :
  untrimmed s ->
  let s' := state_of (update dt rnd s) in
  (update dt rnd s = Done s' /\ platforms s' = platforms s /\
   currentPlatformId s' = currentPlatformId s /\
   targetPlatformId s' = targetPlatformId s /\ score s' = score s /\
   canvasWidth s' = canvasWidth s) \/
  (update dt rnd s = Done s' /\ untrimmed s' /\
   score s' = S (score s) /\
   currentPlatformId s' = S (currentPlatformId s) /\ anchored s') \/
  (update dt rnd s = draw s' /\ trimmed s' /\
   (8 <= List.length (platforms s))%nat /\
   currentPlatformId s' = (List.length (platforms s) - 5)%nat /\
   score s' = S (score s)).
Proof.
  intros Hu. cbv zeta. unfold update.
  destruct (ctx s); cbn [negb]; [|left; repeat split].
  destruct (Player.onGround (player s)) eqn:Hog; cbn [negb andThen].
  { left. rewrite (untrimmed_draw s Hu). repeat split. }
  cbn [set_player platforms targetPlatformId].
  fold (set_player s (integrate dt (player s))).
  set (s1 := set_player s (integrate dt (player s))).
  assert (Hu1 : untrimmed s1) by (apply (untrimmed_frame s); auto).
  pose proof Hu as (Hids & Hlen & Htgt).
  destruct (lookup_some (platforms s) (targetPlatformId s)) as [g Hg];
    [lia|].
  rewrite Hg.
  destruct (checkLanding s1 g).
  - unfold land.
    assert (Htd : untrimmed (touchDown rnd g s1))
      by (apply touchDown_untrimmed; assumption).
    assert (Hid : Platform.id g = targetPlatformId s)
      by (apply (ids_lookup s _ _ 0 Hids Hg)).
    destruct (recenterWorld_untrimmed (touchDown rnd g s1) Htd)
      as (s3 & Hrc & Hsc & Hsh).
    rewrite Hrc. cbn [andThen].
    set (s4 := if fellBelow s3 then endGame s3 else s3).
    assert (Hf4 : platforms s4 = platforms s3 /\
                  currentPlatformId s4 = currentPlatformId s3 /\
                  targetPlatformId s4 = targetPlatformId s3 /\
                  score s4 = score s3 /\ canvasWidth s4 = canvasWidth s3)
      by (subst s4; destruct (fellBelow s3); repeat split).
    destruct Hf4 as (Hp4 & Hc4 & Ht4 & Hs4 & Hw4).
    destruct Hsh as [(Hu3 & Hc3 & (c & Hcc & Hcx))|(Htr & H8 & Hc3)].
    + right. left.
      assert (Hu4 : untrimmed s4) by (apply (untrimmed_frame s3); auto).
      rewrite (untrimmed_draw s4 Hu4). cbn [state_of].
      split; [reflexivity|]. split; [exact Hu4|].
      split; [rewrite Hs4, Hsc; reflexivity|].
      split; [rewrite Hc4, Hc3; cbn; congruence|].
      exists c. rewrite Hp4, Hc4, Hw4. auto.
    + right. right. rewrite draw_state.
      split; [reflexivity|].
      split; [apply (trimmed_frame s3); auto|].
      assert (Hl : List.length (platforms (touchDown rnd g s1))
                   = S (List.length (platforms s))).
      { unfold touchDown. cbn. rewrite length_app. cbn. lia. }
      rewrite Hl in H8, Hc3. split; [lia|].
      split; [rewrite Hc4, Hc3; lia|]. rewrite Hs4, Hsc. reflexivity.
  - cbn [andThen]. left.
    set (s4 := if fellBelow s1 then endGame s1 else s1).
    assert (Hf4 : platforms s4 = platforms s /\
                  currentPlatformId s4 = currentPlatformId s /\
                  targetPlatformId s4 = targetPlatformId s /\
                  score s4 = score s /\ canvasWidth s4 = canvasWidth s)
      by (subst s4; destruct (fellBelow s1); repeat split).
    assert (Hu4 : untrimmed s4)
      by (apply (untrimmed_frame s); tauto).
    rewrite (untrimmed_draw s4 Hu4). cbn [state_of]. tauto.
Qed.

(** X16: on a page that has not been trimmed and holds at most 9
    platforms neither a frame nor a press-release throws: every lookup the
    two handlers (and the aim line of [draw]) make finds its platform. *)
Theorem no_fault_before_trim s dt rnd now :
  untrimmed s -> (List.length (platforms s) <= 9)%nat ->
  faulted (update dt rnd s) = false /\ faulted (onTouchEnd now s) = false.
Proof.
  intros Hu Hlen. split; [|apply untrimmed_release, Hu].
  destruct (update_untrimmed dt rnd s Hu)
    as [(Hd & _)|[(Hd & _)|(Hd & Htr & _ & Hc & _)]]; rewrite Hd;
    [reflexivity | reflexivity |].
  rewrite trimmed_draw; [reflexivity | exact Htr | lia].
Qed.

Lemma untrimmed_crowded : untrimmed crowded.
Proof. repeat split. Qed.

Lemma no_fault_before_trim_witness :
  faulted (update 0.016 (draws 0.75) crowded) = false /\
  faulted (onTouchEnd 7000 crowded) = false.
Proof.
  refine (no_fault_before_trim crowded 0.016 (draws 0.75) 7000
            untrimmed_crowded _).
  cbn. lia.
Defined.

Lemma resetWorld_anchored rnd s : anchored (resetWorld rnd s).
Proof. eexists. split; reflexivity. Qed.

Lemma anchored_frame s s' :
  anchored s -> platforms s' = platforms s ->
  currentPlatformId s' = currentPlatformId s ->
  canvasWidth s' = canvasWidth s -> anchored s'.
Proof.
  unfold anchored. intros Ha Hp Hc Hw. rewrite Hp, Hc, Hw. exact Ha.
Qed.

Lemma step_position e s s' :
  untrimmed s \/ trimmed s ->
  (untrimmed s -> score s = currentPlatformId s /\ anchored s) ->
  step e s = Done s' ->
  untrimmed s' -> score s' = currentPlatformId s' /\ anchored s'.
Proof.
  intros Hsh HK Hstep Hu'.
  destruct e as [rnd|rnd|now|now|dt rnd]; cbn [step] in Hstep.
  - injection Hstep as <-. unfold startGame in *.
    destruct (gameStarted s); [auto|].
    split; [reflexivity | apply resetWorld_anchored].
  - injection Hstep as <-. split; [reflexivity | apply resetWorld_anchored].
  - injection Hstep as <-. unfold onTouchStart in *.
    destruct (negb (gameStarted s) || gameOver s); [auto|].
    destruct HK as [Hs Ha]; [apply (untrimmed_frame _ s) in Hu'; auto|].
    split; [exact Hs | apply (anchored_frame s); auto].
  - pose proof (onTouchEnd_state now s) as Hst. cbv zeta in Hst.
    rewrite Hstep in Hst. cbn [state_of] in Hst.
    destruct Hst as [->|(_ & [->|(v & ->)])]; [auto| |];
      (destruct HK as [Hs Ha]; [apply (untrimmed_frame _ s) in Hu'; auto|];
       split; [exact Hs | apply (anchored_frame s); auto]).
  - destruct Hsh as [Hu|Ht].
    + destruct (update_untrimmed dt rnd s Hu)
        as [(_ & Hp & Hc & Hg & Hs & Hw)|[(_ & _ & Hs & Hc & Ha)|(_ & Htr & _)]];
        rewrite Hstep in *; cbn [state_of] in *.
      * destruct (HK Hu) as [Hsc Han].
        split; [congruence | apply (anchored_frame s); auto].
      * destruct (HK Hu) as [Hsc _]. split; [congruence | exact Ha].
      * exfalso. exact (trimmed_not_untrimmed s' Htr Hu').
    + exfalso. apply (trimmed_not_untrimmed s'); [|exact Hu'].
      apply (trimmed_update dt rnd s); assumption.
Qed.

Lemma exec_position es s s' :
  untrimmed s \/ trimmed s ->
  (untrimmed s -> score s = currentPlatformId s /\ anchored s) ->
  exec es s = Done s' ->
  untrimmed s' -> score s' = currentPlatformId s' /\ anchored s'.
Proof.
  revert s. induction es as [|e es IH]; intros s Hsh HK Hx; cbn [exec] in Hx.
  - injection Hx as <-. exact HK.
  - destruct (step e s) as [s1|s1] eqn:Hstep; cbn [andThen] in Hx;
      [|discriminate Hx].
    apply (IH s1); [| |exact Hx].
    + apply (step_shape e s); assumption.
    + apply (step_position e s); assumption.
Qed.

(** X17: in a session that has run without a fault and whose page is not
    trimmed, the score is the index of the platform the player last landed
    on, the array holds [score + 2] platforms, and that platform sits at
    the desired screen position [round(0.3 W)]. *)
Theorem score_is_position_until_trim W H rnd es s :
  exec es (initCanvas W H rnd) = Done s -> untrimmed s ->
  score s = currentPlatformId s /\
  List.length (platforms s) = (score s + 2)%nat /\
  anchored s.
Proof.
  intros Hx Hu.
  destruct (exec_position es (initCanvas W H rnd) s) as [Hs Ha];
    try assumption.
  - left. apply resetWorld_untrimmed.
  - intros _. split; [reflexivity | apply resetWorld_anchored].
  - split; [exact Hs|]. split; [|exact Ha].
    destruct Hu as (_ & Hlen & _). lia.
Qed.

Lemma score_is_position_until_trim_witness :
  score crowded = currentPlatformId crowded /\
  List.length (platforms crowded) = (score crowded + 2)%nat /\
  anchored crowded.
Proof.
  exact (score_is_position_until_trim 100 200 (draws 0.25) approach_trace
           crowded approach_trace_exec untrimmed_crowded).
Defined.

(** ** The touch handlers *)

(** X18: while the session is not Playing both touch handlers return the
    page exactly as it was and never throw. *)
Theorem touches_ignored_outside_play s now :
  phase s <> Playing ->
  onTouchStart now s = s /\ onTouchEnd now s = Done s.
Proof.
  intros Hph. split; [|apply onTouchEnd_ignored; auto].
  unfold onTouchStart.
  destruct (gameStarted s) eqn:Hs, (gameOver s) eqn:Ho; try reflexivity.
  exfalso. apply Hph, phase_playing. auto.
Qed.

Lemma touches_ignored_outside_play_witness :
  onTouchStart 2000 fallen = fallen /\ onTouchEnd 2000 fallen = Done fallen.
Proof.
  refine (touches_ignored_outside_play fallen 2000 _). discriminate.
Defined.

(** X19: a press-release throws exactly when the session is Playing, a
    press is in progress and the current or the target id is not an index
    of the array; the press flag is cleared even then. *)
Theorem onTouchEnd_faults_iff s now :
  (faulted (onTouchEnd now s) = true <->
   phase s = Playing /\ isPressing s = true /\
   (nth_error (platforms s) (currentPlatformId s) = None \/
    nth_error (platforms s) (targetPlatformId s) = None)) /\
  (faulted (onTouchEnd now s) = true ->
   isPressing (state_of (onTouchEnd now s)) = false).
Proof.
  rewrite phase_playing. unfold onTouchEnd.
  destruct (gameStarted s), (gameOver s); cbn [negb orb faulted];
    try (split; [split; [discriminate | intros [[? ?] _]; discriminate]
                | discriminate]).
  destruct (isPressing s); cbn [negb faulted state_of];
    try (split; [split; [discriminate | intros (_ & ? & _); discriminate]
                | discriminate]).
  destruct (nth_error (platforms s) (currentPlatformId s)),
           (nth_error (platforms s) (targetPlatformId s));
    cbn [faulted state_of set_press isPressing];
    (split; [split; [intros Hf | intros (_ & _ & [Hn|Hn])]|]);
    auto; try discriminate.
Qed.

(** X20: a press launches at most once: whatever a press-release did, a
    second release that follows it without a new press returns the page
    unchanged. *)
Theorem release_is_idempotent s t1 t2 :
  let s1 := state_of (onTouchEnd t1 s) in
  onTouchEnd t2 s1 = Done s1.
Proof.
  cbv zeta. destruct (onTouchEnd_state t1 s) as [Hs|(Hst & [->|(v & ->)])].
  - rewrite Hs. unfold onTouchEnd in Hs |- *.
    destruct (negb (gameStarted s) || gameOver s); [reflexivity|].
    destruct (isPressing s) eqn:Hp; [|reflexivity].
    exfalso. cbn [negb] in Hs.
    destruct (nth_error (platforms s) (currentPlatformId s)),
             (nth_error (platforms s) (targetPlatformId s));
      cbn [state_of] in Hs; apply (f_equal isPressing) in Hs;
      cbn in Hs; congruence.
  - unfold onTouchEnd. cbn [set_press gameStarted gameOver isPressing].
    destruct (negb (gameStarted s) || gameOver s); reflexivity.
  - unfold onTouchEnd.
    cbn [set_player set_press gameStarted gameOver isPressing].
    destruct (negb (gameStarted s) || gameOver s); reflexivity.
Qed.

(** Each component of the launch direction lies in [[-1, 1]]. *)
Lemma direction_bounded a b :
  -1 <= a / Rmax 1 (hypot a b) <= 1 /\ -1 <= b / Rmax 1 (hypot a b) <= 1.
Proof.
  assert (Hh : forall u v, Rabs u <= hypot u v).
  { intros u v. unfold hypot. rewrite <- sqrt_Rsqr_abs.
    apply sqrt_le_1_alt. unfold Rsqr. nra. }
  assert (Hsym : hypot b a = hypot a b)
    by (unfold hypot; f_equal; ring).
  pose proof (Hh a b) as Ha. pose proof (Hh b a) as Hb.
  rewrite Hsym in Hb.
  pose proof (Rmax_l 1 (hypot a b)) as H1.
  pose proof (Rmax_r 1 (hypot a b)) as H2.
  set (len := Rmax 1 (hypot a b)) in *.
  assert (Hinv : 0 < / len) by (apply Rinv_0_lt_compat; lra).
  assert (Hone : len * / len = 1) by (apply Rinv_r; lra).
  unfold Rdiv. unfold Rabs in Ha, Hb.
  destruct (Rcase_abs a), (Rcase_abs b); split; split; nra.
Qed.

(** X21: for a press of non-negative duration on a window of non-negative
    width the launch never points downward: with
    [power = min(ms / 1000, 1.2) * chargeFactor * W], which is at most
    [5.04 * W], the launch has [velocity.y <= - 0.4 * power <= 0] and
    [|velocity.x| <= 0.6 * power]. *)
Theorem launch_points_up s now current target :
  phase s = Playing -> isPressing s = true ->
  nth_error (platforms s) (currentPlatformId s) = Some current ->
  nth_error (platforms s) (targetPlatformId s) = Some target ->
  0 <= now - pressStartTime s -> 0 <= canvasWidth s ->
  let power := spec_power (now - pressStartTime s) (canvasWidth s) in
  let v := Player.velocity (player (state_of (onTouchEnd now s))) in
  0 <= power <= 5.04 * canvasWidth s /\
  y v <= - 0.4 * power /\ y v <= 0 /\
  - (0.6 * power) <= x v <= 0.6 * power.
Proof.
  intros Hph Hp Hc Ht Hms HW power v.
  apply phase_playing in Hph as [Hs Ho].
  subst v. rewrite (onTouchEnd_launch s now current target Hs Ho Hp Hc Ht).
  cbn [state_of set_player player Player.velocity computeLaunch x y
       spec_direction].
  fold power.
  assert (Hpow : 0 <= power <= 5.04 * canvasWidth s).
  { subst power. unfold spec_power, chargeFactor, Rmin.
    destruct (Rle_dec _ _); split; nra. }
  rewrite <- !hypot_length.
  pose proof (direction_bounded
                (x (Platform.position target) - x (Platform.position current))
                (y (Platform.position target) - y (Platform.position current)))
    as [Hx Hy].
  unfold horizontalFactor.
  split; [exact Hpow|]. repeat split; nra.
Qed.

Lemma launch_points_up_witness :
  y (Player.velocity (player (state_of (onTouchEnd 1500 (pressing true)))))
  <= 0.
Proof.
  refine (proj1 (proj2 (proj2
            (launch_points_up (pressing true) 1500 (plat0 30) (plat 1 52)
                              eq_refl eq_refl eq_refl eq_refl _ _)))).
  - cbn. lra.
  - cbn. lra.
Defined.

(** ** The render loop and the charge feedback *)

(** X22: [renderLoop] hands [update] a step of at most 0.033 s; the step
    is 0 while no previous timestamp is stored and is non-negative, hence
    a valid tick, whenever the timestamps do not decrease; it is not
    clamped from below, so a timestamp that goes backwards gives a
    negative step. *)
Theorem renderLoop_step ts rnd lastTs s :
  let dt := frameDt lastTs ts in
  renderLoop ts rnd lastTs s = (ts, update dt rnd s) /\
  dt <= 0.033 /\
  (lastTs = 0 -> dt = 0) /\
  (lastTs <= ts -> 0 <= dt /\ (valid_rand rnd -> valid_event (ETick dt rnd)))
  /\ (lastTs <> 0 -> ts < lastTs -> dt < 0).
Proof.
  cbv zeta. split; [reflexivity|].
  assert (Hle : frameDt lastTs ts <= 0.033) by (apply Rmin_l).
  split; [exact Hle|]. unfold frameDt in *.
  destruct (Req_dec_T lastTs 0) as [Hz|Hnz].
  - replace ((ts - ts) / 1000) with 0 in * by lra.
    rewrite Rmin_right in * by lra.
    split; [reflexivity|]. split.
    + intros _. split; [lra|]. intros Hr. cbn. split; [lra | exact Hr].
    + intros Hnz. contradiction.
  - split; [intros Hz; contradiction|].
    split.
    + intros Hmono.
      assert (H0 : 0 <= Rmin 0.033 ((ts - lastTs) / 1000))
        by (apply Rmin_glb; lra).
      split; [exact H0|]. intros Hr. cbn. split; [split; assumption|exact Hr].
    + intros _ Hback. eapply Rle_lt_trans; [apply Rmin_r|]. lra.
Qed.

Lemma renderLoop_step_witness :
  frameDt 1000 1016 <= 0.033 /\ 0 <= frameDt 1000 1016.
Proof.
  destruct (renderLoop_step 1016 (draws 0.75) 1000 fallen)
    as (_ & Hle & _ & Hmono & _).
  split; [exact Hle|]. apply (proj1 (Hmono ltac:(lra))).
Defined.

(** X23: the squash factor of a frame lies in [[0, 0.25]] and is 0 unless
    a press is held on the ground, so [draw] scales the player vertically
    by a factor of [[0.75, 1]] and horizontally by one of [[1, 1.225]];
    the opacity of the aim line lies in [[0.4, 0.8]]. *)
Theorem charge_feedback_bounds now s :
  0 <= squash now s <= 0.25 /\
  0.75 <= scaleY (squash now s) <= 1 /\
  1 <= scaleX (squash now s) <= 1.225 /\
  (isPressing s && Player.onGround (player s) = false -> squash now s = 0) /\
  0.4 <= aimAlpha now s <= 0.8.
Proof.
  assert (Hsq : 0 <= squash now s <= 0.25).
  { unfold squash. destruct (isPressing s && Player.onGround (player s));
      [apply clamp_range; lra | lra]. }
  split; [exact Hsq|]. unfold scaleY, scaleX.
  split; [lra|]. split; [lra|]. split.
  - intros Hb. unfold squash. rewrite Hb. reflexivity.
  - unfold aimAlpha.
    pose proof (clamp_range ((now - pressStartTime s) / 1200) 0 1
                  ltac:(lra)).
    lra.
Qed.

(** ** The vertical band *)

Lemma recenterWorld_band (P : Platform.t -> Prop) s :
  (forall dx p, P p -> P (shiftPlatform dx p)) ->
  Forall P (platforms s) /\ (2 <= List.length (platforms s))%nat ->
  Forall P (platforms (state_of (recenterWorld s))) /\
  (2 <= List.length (platforms (state_of (recenterWorld s))))%nat.
Proof.
  intros Hshift [Hall Hlen].
  assert (Hmap : forall dx, Forall P (map (shiftPlatform dx) (platforms s))).
  { intros dx. apply Forall_map.
    eapply Forall_impl; [|exact Hall]. intros p. apply Hshift. }
  destruct (recenterWorld_cases s) as [[_ Hf]|(c & _ & Hcase)];
    [rewrite Hf; auto|].
  cbv zeta in Hcase.
  destruct Hcase as [[_ Hd]|[(_ & _ & Hd)|(_ & H8 & first & rest & Hs & Hd)]];
    rewrite Hd; cbn [state_of set_ids set_platforms shiftWorld set_player
                     platforms].
  - auto.
  - rewrite length_map. auto.
  - rewrite <- Hs, <- slice_last_map. split.
    + apply slice_last_Forall, Hmap.
    + rewrite slice_last_6_length; [lia | rewrite length_map; exact H8].
Qed.

(** X24: on a window of non-negative height every platform of every
    reachable page has its centre within half a unit of the vertical band
    [[0.35 H, 0.8 H]], and the page always holds at least two platforms:
    recentering and trimming never move a platform vertically nor empty
    the array. *)
Theorem platforms_stay_in_vertical_band W H s :
  0 <= H -> reachable W H s ->
  Forall (fun p => H * 0.35 - 1 / 2 <= y (Platform.position p)
                   <= H * 0.8 + 1 / 2) (platforms s) /\
  (2 <= List.length (platforms s))%nat.
Proof.
  intros HH Hreach.
  set (P := fun p => H * 0.35 - 1 / 2 <= y (Platform.position p)
                     <= H * 0.8 + 1 / 2).
  pose proof (round_bound (H * 0.35)) as B35.
  pose proof (round_bound (H * 0.8)) as B80.
  pose proof (round_bound (H * 0.7)) as B70.
  assert (Hgen : forall rnd prev, P (generateNextPlatform W H rnd prev)).
  { intros rnd prev. unfold P.
    pose proof (generate_y_band W H rnd prev HH). lra. }
  assert (Hreset : forall rnd s0, canvasWidth s0 = W -> canvasHeight s0 = H ->
            Forall P (platforms (resetWorld rnd s0)) /\
            (2 <= List.length (platforms (resetWorld rnd s0)))%nat).
  { intros rnd s0 Hw Hh. unfold resetWorld. cbn [platforms List.length].
    rewrite Hw, Hh. split; [|lia].
    constructor; [|constructor; [|constructor]].
    - unfold P. cbn [Platform.position y]. lra.
    - apply Hgen. }
  induction Hreach as [rnd Hrnd | e s Hs IH He];
    [apply Hreset; reflexivity|].
  pose proof (wf_height _ _ _ (reachable_wf W H s Hs)) as Hh.
  pose proof (wf_width _ _ _ (reachable_wf W H s Hs)) as Hw.
  destruct e as [rnd|rnd|now|now|dt rnd]; cbn [step state_of].
  - unfold startGame. destruct (gameStarted s); [exact IH|].
    apply Hreset; assumption.
  - apply Hreset; assumption.
  - unfold onTouchStart. destruct (negb (gameStarted s) || gameOver s);
      exact IH.
  - destruct (onTouchEnd_state now s) as [->|(_ & [->|(v & ->)])]; exact IH.
  - destruct (update_state dt rnd s)
      as [->|(_ & [->| [->| (g & _ & _ & Hs3)]])]; try exact IH.
    cbv zeta in Hs3.
    assert (Htd : Forall P (platforms
                    (touchDown rnd g
                       (set_player s (integrate dt (player s))))) /\
                  (2 <= List.length (platforms
                    (touchDown rnd g
                       (set_player s (integrate dt (player s))))))%nat).
    { unfold touchDown.
      cbn [set_score set_platforms set_ids set_player platforms
           canvasWidth canvasHeight].
      rewrite length_app. split; [|lia].
      apply Forall_app. split; [apply IH|].
      constructor; [|constructor]. rewrite Hw, Hh. apply Hgen. }
    apply (recenterWorld_band P) in Htd; [|intros dx p Hp; exact Hp].
    destruct Hs3 as [->| ->]; exact Htd.
Qed.

Lemma platforms_stay_in_vertical_band_witness :
  Forall (fun p => 200 * 0.35 - 1 / 2 <= y (Platform.position p)
                   <= 200 * 0.8 + 1 / 2) (platforms evicted) /\
  (2 <= List.length (platforms evicted))%nat.
Proof.
  refine (platforms_stay_in_vertical_band 100 200 evicted _
            reachable_evicted).
  lra.
Defined.

(** ** After the first trim *)

(** X25: on a page that has just been trimmed, every frame that passes
    the landing check throws: it grounds the player, bumps the score and
    sets the current id to the id of the platform it landed on, which is
    past the end of the array when [recenterWorld] looks it up. *)
Theorem landing_after_trim_throws s dt rnd target :
  trimmed s -> ctx s = true -> Player.onGround (player s) = false ->
  nth_error (platforms s) (targetPlatformId s) = Some target ->
  checkLanding (set_player s (integrate dt (player s))) target = true ->
  exists s',
    update dt rnd s = Fault s' /\
    nth_error (platforms s') (currentPlatformId s') = None /\
    List.length (platforms s') = 7%nat /\
    (7 <= currentPlatformId s')%nat /\
    score s' = S (score s) /\ Player.onGround (player s') = true.
Proof.
  intros (k & Hk & Hids & Hcur & Htgt) Hc Hog Ht Hl.
  rewrite (update_lands dt rnd s target Hc Hog Ht Hl).
  assert (Hlen : List.length (platforms s) = 6%nat).
  { unfold ids in Hids. apply (f_equal (@List.length nat)) in Hids.
    rewrite length_map, length_seq in Hids. exact Hids. }
  assert (Hid : Platform.id target = (k + S k)%nat).
  { rewrite <- Htgt. apply (ids_lookup s); [|exact Ht].
    rewrite Hlen. exact Hids. }
  set (td := touchDown rnd target (set_player s (integrate dt (player s)))).
  assert (Hl7 : List.length (platforms td) = 7%nat).
  { subst td. unfold touchDown. cbn. rewrite length_app, Hlen. reflexivity. }
  assert (Hnone : nth_error (platforms td) (currentPlatformId td) = None).
  { apply nth_error_None. rewrite Hl7. subst td. cbn. lia. }
  destruct (recenterWorld_cases td) as [[_ Hf]|(c & Hcc & _)];
    [|congruence].
  unfold land. fold td. rewrite Hf. cbn [andThen].
  exists td. split; [reflexivity|]. split; [exact Hnone|].
  split; [exact Hl7|]. split; [subst td; cbn; lia|].
  split; reflexivity.
Qed.

Lemma landing_after_trim_throws_witness :
  exists s', update 0.016 (draws 0.75) relaunched = Fault s' /\
             nth_error (platforms s') (currentPlatformId s') = None.
Proof.
  assert (Htr : trimmed relaunched).
  { exists 3%nat. repeat split. lia. }
  assert (Hl : checkLanding
                 (set_player relaunched
                    (integrate 0.016 (player relaunched)))
                 (plat 7 30) = true).
  { unfold relaunched, evicted, checkLanding. page_fields. geometry. Rbool.
    reflexivity. }
  destruct (landing_after_trim_throws relaunched 0.016 (draws 0.75)
              (plat 7 30) Htr eq_refl eq_refl eq_refl Hl)
    as (s' & Hup & Hn & _).
  exists s'. split; assumption.
Defined.

(** ** The first seven landings *)

Lemma update_score_mono dt rnd s :
  (score s <= score (state_of (update dt rnd s)))%nat.
Proof.
  destruct (update_state dt rnd s)
    as [->|(_ & [->| [->| (g & _ & _ & Hs)]])]; cbn; try lia.
  cbv zeta in Hs.
  pose proof (recenterWorld_score
                (touchDown rnd g (set_player s (integrate dt (player s)))))
    as Hsc.
  destruct Hs as [->| ->]; cbn [endGame set_flags score]; rewrite Hsc;
    cbn; lia.
Qed.

(** Fault-free sessions are untrimmed with the score as current index, or
    trimmed with a score of at least 7. *)
Lemma step_progress e s s' :
  (untrimmed s /\ score s = currentPlatformId s) \/
  (trimmed s /\ (7 <= score s)%nat) ->
  step e s = Done s' ->
  (untrimmed s' /\ score s' = currentPlatformId s') \/
  (trimmed s' /\ (7 <= score s')%nat).
Proof.
  intros Hinv Hstep.
  assert (Hreset : forall rnd s0,
            untrimmed (resetWorld rnd s0) /\
            score (resetWorld rnd s0) = currentPlatformId (resetWorld rnd s0))
    by (intros; split; [apply resetWorld_untrimmed | reflexivity]).
  assert (Hframe : forall s1,
            platforms s1 = platforms s ->
            currentPlatformId s1 = currentPlatformId s ->
            targetPlatformId s1 = targetPlatformId s ->
            score s1 = score s ->
            (untrimmed s1 /\ score s1 = currentPlatformId s1) \/
            (trimmed s1 /\ (7 <= score s1)%nat)).
  { intros s1 Hp Hc Ht Hs. destruct Hinv as [[Hu Hsc]|[Htr Hsc]].
    - left. split; [apply (untrimmed_frame s); auto | congruence].
    - right. split; [apply (trimmed_frame s); auto | lia]. }
  destruct e as [rnd|rnd|now|now|dt rnd]; cbn [step] in Hstep.
  - injection Hstep as <-. unfold startGame.
    destruct (gameStarted s); [exact Hinv | left; apply Hreset].
  - injection Hstep as <-. left. apply Hreset.
  - injection Hstep as <-. unfold onTouchStart.
    destruct (negb (gameStarted s) || gameOver s); [exact Hinv|].
    apply Hframe; reflexivity.
  - pose proof (onTouchEnd_state now s) as Hst. cbv zeta in Hst.
    rewrite Hstep in Hst. cbn [state_of] in Hst.
    destruct Hst as [->|(_ & [->|(v & ->)])]; [exact Hinv| |];
      apply Hframe; reflexivity.
  - destruct Hinv as [[Hu Hsc]|[Htr Hsc]].
    + destruct (update_untrimmed dt rnd s Hu)
        as [(_ & Hp & Hc & Hg & Hs & _)
           |[(_ & Hu' & Hs & Hc & _)|(_ & Htr & H8 & _ & Hs)]];
        rewrite Hstep in *; cbn [state_of] in *.
      * left. split; [apply (untrimmed_frame s); auto | congruence].
      * left. split; [exact Hu' | congruence].
      * right. split; [exact Htr|].
        destruct Hu as (_ & Hlen & _). lia.
    + right. split; [apply (trimmed_update dt rnd s); assumption|].
      pose proof (update_score_mono dt rnd s) as Hm.
      rewrite Hstep in Hm. cbn [state_of] in Hm. lia.
Qed.

Lemma exec_progress es s s' :
  (untrimmed s /\ score s = currentPlatformId s) \/
  (trimmed s /\ (7 <= score s)%nat) ->
  exec es s = Done s' ->
  (untrimmed s' /\ score s' = currentPlatformId s') \/
  (trimmed s' /\ (7 <= score s')%nat).
Proof.
  revert s. induction es as [|e es IH]; intros s Hinv Hx; cbn [exec] in Hx.
  - injection Hx as <-. exact Hinv.
  - destruct (step e s) as [s1|s1] eqn:Hstep; cbn [andThen] in Hx;
      [|discriminate Hx].
    apply (IH s1); [|exact Hx]. apply (step_progress e s); assumption.
Qed.

(** X26: no handler throws during the first seven landings: in a session
    that has run without a fault, while the score is at most 6 the page
    is untrimmed and the next event, whatever it is, returns. A page is
    trimmed only at a score of 7 or more. *)
Theorem safe_until_seven W H rnd es s e :
  exec es (initCanvas W H rnd) = Done s ->
  (score s <= 6)%nat ->
  untrimmed s /\ faulted (step e s) = false.
Proof.
  intros Hx Hsc.
  destruct (exec_progress es (initCanvas W H rnd) s) as [[Hu Hs]|[_ H7]];
    [left; split; [apply resetWorld_untrimmed | reflexivity]
    | exact Hx | | lia].
  split; [exact Hu|].
  destruct e as [r|r|now|now|dt r]; cbn [step faulted]; try reflexivity.
  - apply untrimmed_release, Hu.
  - destruct (update_untrimmed dt r s Hu)
      as [(Hd & _)|[(Hd & _)|(Hd & Htr & _ & Hc & _)]]; rewrite Hd;
      [reflexivity | reflexivity |].
    rewrite trimmed_draw; [reflexivity | exact Htr |].
    destruct Hu as (_ & Hlen & _). lia.
Qed.

Lemma safe_until_seven_witness :
  untrimmed crowded /\
  faulted (step (ETick 0.016 (draws 0.75)) crowded) = false.
Proof.
  refine (safe_until_seven 100 200 (draws 0.25) approach_trace crowded
            (ETick 0.016 (draws 0.75)) approach_trace_exec _).
  cbn. lia.
Defined.

(** Witnesses on the page the faulting frame left behind. *)
Lemma recenterWorld_faults_iff_witness : faulted (recenterWorld crashed) = true.
Proof.
  exact (proj2 (recenterWorld_faults_iff crashed) eq_refl).
Defined.

Lemma onTouchEnd_faults_iff_witness :
  faulted (onTouchEnd 9500 (set_press crashed 9000 true)) = true.
Proof.
  refine (proj2 (proj1 (onTouchEnd_faults_iff (set_press crashed 9000 true)
                                              9500)) _).
  split; [reflexivity|]. split; [reflexivity|]. left. reflexivity.
Defined.

Lemma charge_feedback_bounds_witness : squash 2000 fallen = 0.
Proof.
  exact (proj1 (proj2 (proj2 (proj2 (charge_feedback_bounds 2000 fallen))))
           eq_refl).
Defined.


(** ** The landing frame and the window *)

(** C7: in every reachable page the target id is the current id plus one,
    so it is before a successful landing, and it is again after the
    landing frame, whether or not the window was trimmed. The frame pushes
    one platform; when the array then exceeds 8 entries and the platform
    [recenterWorld] looks up as current is off the desired position, the
    trim is performed and exactly 6 platforms are retained, the last six
    of the array; when the array does not exceed 8 entries nothing is
    evicted. *)
Theorem target_follows_current W H s dt rnd target :
  reachable W H s ->
  Player.onGround (player s) = false ->
  nth_error (platforms s) (targetPlatformId s) = Some target ->
  checkLanding (set_player s (integrate dt (player s))) target = true ->
  let s' := state_of (update dt rnd s) in
  let pushed := platforms s ++ [generateNextPlatform W H rnd target] in
  targetPlatformId s = S (currentPlatformId s) /\
  targetPlatformId s' = S (currentPlatformId s') /\
  (List.length (platforms s') <> S (List.length (platforms s)) ->
   List.length (platforms s') = 6%nat) /\
  (forall c,
      nth_error pushed (Platform.id target) = Some c ->
      x (Platform.position c) <> round (W * 0.3) ->
      (8 < List.length pushed)%nat ->
      List.length (platforms s') = 6%nat /\
      platforms s'
      = map (shiftPlatform (round (W * 0.3) - x (Platform.position c)))
            (slice_last 6 pushed)) /\
  ((List.length pushed <= 8)%nat ->
   List.length (platforms s') = List.length pushed).
Proof.
  intros Hreach Hog Ht Hl s' pushed. apply reachable_wf in Hreach as Hwf.
  pose proof (landing_state dt rnd s target (wf_ctx _ _ _ Hwf) Hog Ht Hl)
    as Hs3.
  cbv zeta in Hs3. fold s' in Hs3.
  set (td := touchDown rnd target (set_player s (integrate dt (player s))))
    in *.
  assert (Hp : platforms td = pushed).
  { subst td pushed. unfold touchDown.
    cbn [set_score set_platforms set_ids set_player platforms canvasWidth
         canvasHeight].
    rewrite (wf_width _ _ _ Hwf), (wf_height _ _ _ Hwf). reflexivity. }
  assert (Hcur : currentPlatformId td = Platform.id target) by reflexivity.
  assert (Hcw : canvasWidth td = W) by apply (wf_width _ _ _ Hwf).
  assert (Hps : platforms s' = platforms (state_of (recenterWorld td)))
    by (destruct Hs3 as [->|[_ ->]]; reflexivity).
  assert (Hpl : List.length pushed = S (List.length (platforms s))).
  { subst pushed. rewrite length_app. cbn. lia. }
  split; [apply Hwf|]. split; [apply update_ids, Hwf|].
  rewrite Hps.
  destruct (recenterWorld_cases td) as [[Hn Hf]|(c0 & Hc0 & Hcase)].
  { rewrite Hf. cbn [state_of]. rewrite Hp, Hpl.
    rewrite Hcur, Hp in Hn.
    split; [intros Hx; exfalso; apply Hx; reflexivity|].
    split; [intros c Hc; congruence | intros _; reflexivity]. }
  cbv zeta in Hcase. rewrite Hcur, Hp in Hc0. rewrite Hcw in Hcase.
  destruct Hcase as [[Hz Hd]|[(Hnz & H8 & Hd)|(Hnz & H8 & first & rest & Hs & Hd)]];
    rewrite Hd; cbn [state_of set_ids set_platforms shiftWorld set_player
                     platforms]; rewrite ?Hp in *.
  - rewrite Hpl.
    split; [intros Hx; exfalso; apply Hx; reflexivity|].
    split; [|intros _; reflexivity].
    intros c Hc Hx. exfalso. assert (c = c0) by congruence. subst c. lra.
  - rewrite length_map, Hpl.
    split; [intros Hx; exfalso; apply Hx; reflexivity|].
    split; [|intros _; reflexivity].
    intros c Hc Hx H9. exfalso. lia.
  - assert (H6 : List.length (first :: rest) = 6%nat).
    { rewrite <- Hs, length_map. apply slice_last_6_length, H8. }
    split; [intros _; exact H6|].
    split; [|intros Hle; exfalso; lia].
    intros c Hc _ _. assert (c = c0) by congruence. subst c.
    split; [exact H6 | symmetry; exact Hs].
Qed.

Lemma target_follows_current_witness :
  let s' := state_of (update 0.016 (draws 0.75) poised) in
  targetPlatformId s' = S (currentPlatformId s') /\
  List.length (platforms s') = 6%nat.
Proof.
  pose proof (target_follows_current 100 200 poised 0.016 (draws 0.75)
                (plat 7 8) reachable_poised eq_refl eq_refl poised_lands)
    as (_ & Hafter & _ & Htrim & _).
  split; [exact Hafter|].
  refine (proj1 (Htrim (plat 7 8) eq_refl _ _)).
  - cbn [plat Platform.position x]. rewrite round_30. lra.
  - rewrite length_app. cbn. lia.
Defined.
